(** * Fico8: record validation, defaulting and feature derivation

    A shallow embedding of [src/Fico8/__init__.py]: the five category
    records with their derived properties and [numpy] vectors, the
    composite [CreditRecord] with its [process] step, and the five
    marshmallow schemas that validate raw input into records.

    Python values are modelled as follows.
    - An [int] is a [Z]; a finite [float] is the rational it denotes, a [Q].
      Python compares an int with a float by exact value, so every
      comparison below goes through [Q].
    - A [dict] with string keys is a [gmap string _].
    - A raised exception is the [Raise] branch of [result]. *)

From Stdlib Require Import ZArith QArith Lia.
From stdpp Require Import gmap strings list fin_maps.

Open Scope string_scope.
Open Scope Z_scope.

(** ** Python numbers *)

Inductive num : Type :=
  | NInt (z : Z)
  | NFloat (q : Q).

Definition num_Q (v : num) : Q :=
  match v with
  | NInt z => inject_Z z
  | NFloat q => q
  end.

Definition Qlt_bool (a b : Q) : bool := negb (Qle_bool b a).

(** [a <= b], [a < b], [a >= b], [a > b], [a == b] on numbers. *)
Definition num_leb (a b : num) : bool := Qle_bool (num_Q a) (num_Q b).
Definition num_ltb (a b : num) : bool := Qlt_bool (num_Q a) (num_Q b).
Definition num_geb (a b : num) : bool := num_leb b a.
Definition num_gtb (a b : num) : bool := num_ltb b a.
Definition num_eqb (a b : num) : bool := Qeq_bool (num_Q a) (num_Q b).

(** [int(v)]: identity on an int, truncation toward zero on a float. *)
Definition to_int (v : num) : Z :=
  match v with
  | NInt z => z
  | NFloat q => Z.quot (Qnum q) (Z.pos (Qden q))
  end.

(** [float(v)]. *)
Definition to_float (v : num) : Q := num_Q v.

(** ** Exceptions *)

(** One message of a marshmallow [ValidationError], kept by its kind rather
    than as text: a required field that is absent, a key the schema does not
    declare, a value a [Range] validator refuses (with the bounds of that
    validator). *)
Inductive message : Type :=
  | Required
  | Unknown
  | NotInRange (min max : option num).

(** The [messages] attribute of a [ValidationError]: under each key either
    the messages for that field or, for a nested schema, the dict of the
    messages of its fields. *)
Unset Elimination Schemes.
Inductive messages : Type :=
  | Messages (l : list message)
  | Nested (m : gmap string messages).
Set Elimination Schemes.

Inductive exn : Type :=
  | AssertionError
  | KeyError (key : string)
  | TypeError
  | ValidationError (msgs : gmap string messages).

Inductive result (A : Type) : Type :=
  | Ok (a : A)
  | Raise (e : exn).
Arguments Ok {A} a.
Arguments Raise {A} e.

#[global] Instance result_ret : MRet result := fun A a => Ok a.
#[global] Instance result_bind : MBind result := fun A B f m =>
  match m with
  | Ok a => f a
  | Raise e => Raise e
  end.

(** Whether a call returned. *)
Definition is_Ok {A : Type} (r : result A) : bool :=
  match r with
  | Ok _ => true
  | Raise _ => false
  end.

(** [d[key]] on a dict. *)
Definition getitem {V : Type} (d : gmap string V) (key : string) : result V :=
  match d !! key with
  | Some v => Ok v
  | None => Raise (KeyError key)
  end.

(** [b & v] with [b] a bool: bitwise and with the int 0 or 1; a float
    operand is a [TypeError]. *)
Definition bool_and (b : bool) (v : num) : result num :=
  match v with
  | NInt z => Ok (NInt (Z.land (Z.b2z b) z))
  | NFloat _ => Raise TypeError
  end.

(** ** Category records *)

(** The loop shared by the five [__init__] methods:
    [for key in columns: value = kwargs.get(key); assert value is not None;
    data[key] = value]. *)
Fixpoint init_data (columns : list string) (kwargs data : gmap string num)
  : result (gmap string num) :=
  match columns with
  | [] => Ok data
  | key :: rest =>
      match kwargs !! key with
      | None => Raise AssertionError
      | Some value => init_data rest kwargs (<[key := value]> data)
      end
  end.

(** The loop shared by the five [numpy] methods:
    [for key in columns: data.append(self.__data[key])]. *)
Fixpoint append_columns (columns : list string) (d : gmap string num)
  : result (list num) :=
  match columns with
  | [] => Ok []
  | key :: rest =>
      v ← getitem d key;
      vs ← append_columns rest d;
      Ok (v :: vs)
  end.

(** An element of the Python list handed to [np.array]. *)
Inductive cell : Type :=
  | CNum (v : num)
  | CBool (b : bool).

(** [np.array(data).astype(float)], element by element: a bool becomes 0.0
    or 1.0, a number its float value (an int of magnitude above 2^53 would be
    rounded by the real conversion; here it keeps its value). *)
Definition astype_float (c : cell) : Q :=
  match c with
  | CNum v => to_float v
  | CBool b => inject_Z (Z.b2z b)
  end.

Definition np_array (data : list cell) : list Q := map astype_float data.

Module PaymentHistoryCreditRecord.

Definition __payment_history_columns__ : list string :=
  ["delinq_2yrs";
   "mths_since_last_delinq";
   "mths_since_last_record";
   "open_acc";
   "pub_rec";
   "collections_12_mths_ex_med";
   "mths_since_last_major_derog";
   "acc_now_delinq";
   "tot_coll_amt";
   "chargeoff_within_12_mths";
   "delinq_amnt";
   "mths_since_recent_bc_dlq";
   "mths_since_recent_revol_delinq";
   "num_accts_ever_120_pd";
   "num_actv_bc_tl";
   "num_actv_rev_tl";
   "num_rev_tl_bal_gt_0";
   "num_sats";
   "num_tl_120dpd_2m";
   "num_tl_30dpd";
   "num_tl_90g_dpd_24m";
   "num_tl_op_past_12m";
   "pct_tl_nvr_dlq";
   "percent_bc_gt_75";
   "pub_rec_bankruptcies";
   "tax_liens"].

Record t : Type := Build { data : gmap string num }.

Definition __init__ (kwargs : gmap string num) : result t :=
  d ← init_data __payment_history_columns__ kwargs ∅;
  Ok (Build d).

Definition never_major_derog (self : t) : result bool :=
  v ← getitem (data self) "mths_since_last_major_derog";
  Ok (num_geb v (NInt 226)).

Definition never_record (self : t) : result bool :=
  v ← getitem (data self) "mths_since_last_record";
  Ok (num_geb v (NInt 124)).

Definition never_delinq (self : t) : result bool :=
  v ← getitem (data self) "mths_since_last_delinq";
  Ok (num_geb v (NInt 226)).

Definition never_recent_revol_delinq (self : t) : result bool :=
  v ← getitem (data self) "mths_since_recent_revol_delinq";
  Ok (num_geb v (NInt 176)).

Definition never_recent_bc_delinq (self : t) : result bool :=
  v ← getitem (data self) "mths_since_recent_bc_dlq";
  Ok (num_geb v (NInt 195)).

(** [self.never_delinq & self.__data['tot_coll_amt'] == 0]: in Python [&]
    binds tighter than [==], so this is
    [(self.never_delinq & self.__data['tot_coll_amt']) == 0]. *)
Definition is_clean (self : t) : result bool :=
  nd ← never_delinq self;
  amt ← getitem (data self) "tot_coll_amt";
  x ← bool_and nd amt;
  Ok (num_eqb x (NInt 0)).

Definition has_recent_pr (self : t) : result bool :=
  v ← getitem (data self) "mths_since_last_record";
  Ok (num_geb v (NInt 12)).

Definition has_recent_delinq (self : t) : result bool :=
  v ← getitem (data self) "mths_since_last_delinq";
  Ok (num_geb v (NInt 12)).

Definition numpy (self : t) : result (list Q) :=
  raw ← append_columns __payment_history_columns__ (data self);
  p1 ← never_major_derog self;
  p2 ← never_record self;
  p3 ← never_delinq self;
  p4 ← never_recent_revol_delinq self;
  p5 ← never_recent_bc_delinq self;
  p6 ← is_clean self;
  p7 ← has_recent_pr self;
  p8 ← has_recent_delinq self;
  Ok (np_array (map CNum raw ++ map CBool [p1; p2; p3; p4; p5; p6; p7; p8])).

End PaymentHistoryCreditRecord.

Module AmountsOwedCreditRecord.

Definition __amounts_owed_columns__ : list string :=
  ["revol_bal";
   "revol_util";
   "tot_cur_bal";
   "total_bal_il";
   "il_util";
   "max_bal_bc";
   "all_util";
   "total_rev_hi_lim";
   "avg_cur_bal";
   "bc_open_to_buy";
   "bc_util";
   "tot_hi_cred_lim";
   "total_bal_ex_mort";
   "total_bc_limit";
   "total_il_high_credit_limit"].

Record t : Type := Build { data : gmap string num }.

Definition __init__ (kwargs : gmap string num) : result t :=
  d ← init_data __amounts_owed_columns__ kwargs ∅;
  Ok (Build d).

Definition numpy (self : t) : result (list Q) :=
  raw ← append_columns __amounts_owed_columns__ (data self);
  Ok (np_array (map CNum raw)).

End AmountsOwedCreditRecord.

Module HistoryLengthCreditRecord.

Definition __history_length_columns__ : list string :=
  ["mo_sin_old_il_acct";
   "mo_sin_old_rev_tl_op";
   "age_earliest_cr_line"].

Record t : Type := Build { data : gmap string num }.

Definition __init__ (kwargs : gmap string num) : result t :=
  d ← init_data __history_length_columns__ kwargs ∅;
  Ok (Build d).

Definition is_mature (self : t) : result bool :=
  v ← getitem (data self) "age_earliest_cr_line";
  Ok (num_geb v (NInt 36)).

Definition numpy (self : t) : result (list Q) :=
  raw ← append_columns __history_length_columns__ (data self);
  p1 ← is_mature self;
  Ok (np_array (map CNum raw ++ map CBool [p1])).

End HistoryLengthCreditRecord.

Module NewCreditCreditRecord.

Definition __new_credit_columns__ : list string :=
  ["inq_last_6mths";
   "open_acc_6m";
   "open_il_12m";
   "open_il_24m";
   "mths_since_rcnt_il";
   "open_rv_12m";
   "open_rv_24m";
   "inq_fi";
   "inq_last_12m";
   "acc_open_past_24mths";
   "mo_sin_rcnt_rev_tl_op";
   "mo_sin_rcnt_tl";
   "mths_since_recent_bc";
   "mths_since_recent_inq"].

(** [has_new_revolver] is an attribute that starts as Python's [None]. *)
Record t : Type := Build {
  data : gmap string num;
  has_new_revolver : option bool
}.

Definition __init__ (kwargs : gmap string num) : result t :=
  d ← init_data __new_credit_columns__ kwargs ∅;
  Ok (Build d None).

Definition set_has_new_revolver (self : t) (b : bool) : t :=
  Build (data self) (Some b).

Definition numpy (self : t) : result (list Q) :=
  raw ← append_columns __new_credit_columns__ (data self);
  match has_new_revolver self with
  | None => Raise AssertionError
  | Some b => Ok (np_array (map CNum raw ++ map CBool [b]))
  end.

End NewCreditCreditRecord.

Module CreditMixCreditRecord.

Definition __credit_mix_columns__ : list string :=
  ["open_act_il";
   "total_cu_tl";
   "mort_acc";
   "num_bc_sats";
   "num_bc_tl";
   "num_il_tl";
   "num_op_rev_tl";
   "num_rev_accts";
   "num_tradelines"].

(** [no_revol_util] is an attribute that starts as Python's [None]. *)
Record t : Type := Build {
  data : gmap string num;
  no_revol_util : option bool
}.

Definition __init__ (kwargs : gmap string num) : result t :=
  d ← init_data __credit_mix_columns__ kwargs ∅;
  Ok (Build d None).

Definition set_no_revol_util (self : t) (b : bool) : t :=
  Build (data self) (Some b).

Definition is_thick (self : t) : result bool :=
  v ← getitem (data self) "num_tradelines";
  Ok (num_geb v (NInt 4)).

Definition numpy (self : t) : result (list Q) :=
  raw ← append_columns __credit_mix_columns__ (data self);
  p1 ← is_thick self;
  match no_revol_util self with
  | None => Raise AssertionError
  | Some b => Ok (np_array (map CNum raw ++ map CBool [p1; b]))
  end.

End CreditMixCreditRecord.

(** ** The composite record *)

Module CreditRecord.

Record t : Type := Build {
  payment_history : PaymentHistoryCreditRecord.t;
  amounts_owed : AmountsOwedCreditRecord.t;
  history_length : HistoryLengthCreditRecord.t;
  new_credit : NewCreditCreditRecord.t;
  credit_mix : CreditMixCreditRecord.t
}.

Definition set_new_credit (self : t) (nc : NewCreditCreditRecord.t) : t :=
  Build (payment_history self) (amounts_owed self) (history_length self)
        nc (credit_mix self).

Definition set_credit_mix (self : t) (cm : CreditMixCreditRecord.t) : t :=
  Build (payment_history self) (amounts_owed self) (history_length self)
        (new_credit self) cm.

(** [process] mutates [self] in place. The model returns the composite as
    the call leaves it together with the outcome of the call, so that a
    [KeyError] in the second statement keeps the write of the first. *)
Definition process (self : t) : t * result unit :=
  match getitem (HistoryLengthCreditRecord.data (history_length self))
                "mo_sin_old_rev_tl_op" with
  | Raise e => (self, Raise e)
  | Ok v =>
      let self1 :=
        set_new_credit self
          (NewCreditCreditRecord.set_has_new_revolver (new_credit self)
             (num_leb v (NInt 12))) in
      match getitem (AmountsOwedCreditRecord.data (amounts_owed self1))
                    "revol_bal" with
      | Raise e => (self1, Raise e)
      | Ok w =>
          (set_credit_mix self1
             (CreditMixCreditRecord.set_no_revol_util (credit_mix self1)
                (num_ltb w (NInt 1))),
           Ok tt)
      end
  end.

(** The five vectors [fico_score] hands to the model, in its order. *)
Definition inputs (self : t) : result (list (list Q)) :=
  v1 ← PaymentHistoryCreditRecord.numpy (payment_history self);
  v2 ← AmountsOwedCreditRecord.numpy (amounts_owed self);
  v3 ← HistoryLengthCreditRecord.numpy (history_length self);
  v4 ← NewCreditCreditRecord.numpy (new_credit self);
  v5 ← CreditMixCreditRecord.numpy (credit_mix self);
  Ok [v1; v2; v3; v4; v5].

End CreditRecord.

(** ** Schemas

    The schemas are declared with marshmallow, which is a library and not
    part of this repository. Its [load] is modelled here for the features the
    schemas use: [fields.Int] and [fields.Float] with [required], [missing]
    and [validate=validate.Range(min, max)], [fields.Nested] with [required]
    and [data_key], the default [unknown=RAISE], and [post_load]. Raw values
    are JSON numbers. *)

Inductive ftype : Type := Int | Float.

(** [validate.Range(min=..., max=...)], both bounds inclusive. *)
Record Range : Type := validate_Range {
  min : option num;
  max : option num
}.

Record field : Type := Field {
  name : string;
  ty : ftype;
  required : bool;
  missing : option num;
  validate : option Range
}.

Definition fields_Int := fun name => Field name Int.
Definition fields_Float := fun name => Field name Float.
Definition Range_min (lo : num) : option Range :=
  Some (validate_Range (Some lo) None).
Definition Range_min_max (lo hi : num) : option Range :=
  Some (validate_Range (Some lo) (Some hi)).

(** [Range.__call__]: [None] when the value passes. *)
Definition Range_call (r : Range) (value : num) : option message :=
  match min r with
  | Some lo =>
      if num_ltb value lo then Some (NotInRange (min r) (max r))
      else match max r with
           | Some hi =>
               if num_gtb value hi then Some (NotInRange (min r) (max r))
               else None
           | None => None
           end
  | None =>
      match max r with
      | Some hi =>
          if num_gtb value hi then Some (NotInRange (min r) (max r))
          else None
      | None => None
      end
  end.

(** [Integer._deserialize] is [int(value)] (the fields are not strict),
    [Float._deserialize] is [float(value)]. *)
Definition Number_deserialize (t : ftype) (value : num) : num :=
  match t with
  | Int => NInt (to_int value)
  | Float => NFloat (to_float value)
  end.

Inductive outcome : Type :=
  | Value (v : num)
  | Absent
  | Invalid (msgs : list message).

(** [Field.deserialize] on the raw value, [None] when the key is absent: a
    required field must be there, an absent optional field takes its [missing]
    value as it is (unconverted and unvalidated), a present value is converted
    and then validated. *)
Definition Field_deserialize (f : field) (raw : option num) : outcome :=
  match raw with
  | None =>
      if required f then Invalid [Required]
      else match missing f with
           | Some d => Value d
           | None => Absent
           end
  | Some value =>
      let output := Number_deserialize (ty f) value in
      match validate f with
      | None => Value output
      | Some r =>
          match Range_call r output with
          | Some msg => Invalid [msg]
          | None => Value output
          end
      end
  end.

(** The loop of [Schema._deserialize] over the declared fields, in
    declaration order, filling the result dict and the error store. *)
Fixpoint Schema_fields (fs : list field) (data ret : gmap string num)
    (errors : gmap string (list message))
  : gmap string num * gmap string (list message) :=
  match fs with
  | [] => (ret, errors)
  | f :: rest =>
      match Field_deserialize f (data !! name f) with
      | Value v => Schema_fields rest data (<[name f := v]> ret) errors
      | Absent => Schema_fields rest data ret errors
      | Invalid msgs => Schema_fields rest data ret (<[name f := msgs]> errors)
      end
  end.

(** With [unknown=RAISE], every key of the input that no field declares is
    an error of its own. *)
Definition Schema_unknown (fs : list field) (data : gmap string num)
  : gmap string (list message) :=
  (fun _ => [Unknown]) <$>
    filter (fun kv => kv.1 ∉ name <$> fs) data.

Definition Schema_deserialize (fs : list field) (data : gmap string num)
  : gmap string num * gmap string (list message) :=
  let '(ret, errors) := Schema_fields fs data ∅ ∅ in
  (ret, errors ∪ Schema_unknown fs data).

(** [Schema.load]: deserialize, raise the collected errors if there are any,
    otherwise hand the result dict to the [post_load] hook. *)
Definition Schema_load {R : Type} (fs : list field)
    (post_load : gmap string num -> result R) (data : gmap string num)
  : result R :=
  let '(ret, errors) := Schema_deserialize fs data in
  if decide (errors = ∅) then post_load ret
  else Raise (ValidationError (Messages <$> errors)).

Module PaymentHistoryCreditRecordSchema.

(** The first declared field, [revol_bal], is not one of the columns of the
    record. [mths_since_last_record] is declared with the keyword [rqeuired],
    which marshmallow does not read: the field keeps the default
    [required=False]. *)
Definition declared_fields : list field :=
 [fields_Float "revol_bal" false (Some (NInt 0)) (Range_min (NFloat 0));
  fields_Int "delinq_2yrs" false (Some (NInt 0)) (Range_min (NInt 0));
  fields_Int "mths_since_last_delinq" false (Some (NInt 226))
      (Range_min_max (NInt 0) (NInt 226));
  fields_Int "mths_since_last_record" false (Some (NInt 124))
      (Range_min_max (NInt 0) (NInt 124));
  fields_Int "open_acc" true None (Range_min (NInt 0));
  fields_Int "pub_rec" false (Some (NInt 0)) (Range_min (NInt 0));
  fields_Int "collections_12_mths_ex_med" false (Some (NInt 0))
      (Range_min (NInt 0));
  fields_Int "mths_since_last_major_derog" false (Some (NInt 226))
      (Range_min_max (NInt 0) (NInt 226));
  fields_Int "acc_now_delinq" false (Some (NInt 0)) (Range_min (NInt 0));
  fields_Int "tot_coll_amt" false (Some (NInt 0)) (Range_min (NInt 0));
  fields_Int "chargeoff_within_12_mths" false (Some (NInt 0))
      (Range_min (NInt 0));
  fields_Int "delinq_amnt" false (Some (NInt 0)) (Range_min (NInt 0));
  fields_Int "mths_since_recent_bc_dlq" false (Some (NInt 195))
      (Range_min (NInt 0));
  fields_Int "mths_since_recent_revol_delinq" false (Some (NInt 176))
      (Range_min (NInt 0));
  fields_Int "num_accts_ever_120_pd" false (Some (NInt 0))
      (Range_min (NInt 0));
  fields_Int "num_actv_bc_tl" false (Some (NInt 0)) (Range_min (NInt 0));
  fields_Int "num_actv_rev_tl" false (Some (NInt 0)) (Range_min (NInt 0));
  fields_Int "num_rev_tl_bal_gt_0" false (Some (NInt 0)) (Range_min (NInt 0));
  fields_Int "num_sats" true None (Range_min (NInt 0));
  fields_Int "num_tl_120dpd_2m" false (Some (NInt 0)) (Range_min (NInt 0));
  fields_Int "num_tl_30dpd" false (Some (NInt 0)) (Range_min (NInt 0));
  fields_Int "num_tl_90g_dpd_24m" false (Some (NInt 0)) (Range_min (NInt 0));
  fields_Int "num_tl_op_past_12m" false (Some (NInt 0)) (Range_min (NInt 0));
  fields_Int "pct_tl_nvr_dlq" true None (Range_min_max (NInt 0) (NInt 100));
  fields_Int "percent_bc_gt_75" true None (Range_min_max (NInt 0) (NInt 100));
  fields_Int "pub_rec_bankruptcies" false (Some (NInt 0)) (Range_min (NInt 0));
  fields_Int "tax_liens" false (Some (NInt 0)) (Range_min (NInt 0))].

Definition make_payment_history_credit_record (data : gmap string num) : result PaymentHistoryCreditRecord.t :=
  PaymentHistoryCreditRecord.__init__ data.

Definition load (data : gmap string num) : result PaymentHistoryCreditRecord.t :=
  Schema_load declared_fields make_payment_history_credit_record data.

End PaymentHistoryCreditRecordSchema.

Module AmountsOwedCreditRecordSchema.

Definition declared_fields : list field :=
 [fields_Float "revol_bal" false (Some (NFloat 0)) (Range_min (NInt 0));
  fields_Float "revol_util" false (Some (NFloat 0)) (Range_min (NInt 0));
  fields_Float "tot_cur_bal" true None (Range_min (NInt 0));
  fields_Float "total_bal_il" false (Some (NFloat 0)) (Range_min (NInt 0));
  fields_Float "il_util" false (Some (NFloat 0)) (Range_min (NInt 0));
  fields_Float "max_bal_bc" false (Some (NFloat 0)) (Range_min (NInt 0));
  fields_Float "all_util" true None (Range_min (NInt 0));
  fields_Float "total_rev_hi_lim" false (Some (NFloat 0)) (Range_min (NInt 0));
  fields_Float "avg_cur_bal" true None (Range_min (NInt 0));
  fields_Float "bc_open_to_buy" false (Some (NFloat 0)) (Range_min (NInt 0));
  fields_Float "bc_util" false (Some (NFloat 0)) (Range_min (NInt 0));
  fields_Float "tot_hi_cred_lim" false (Some (NFloat 0)) (Range_min (NInt 0));
  fields_Float "total_bal_ex_mort" true None (Range_min (NInt 0));
  fields_Float "total_bc_limit" false (Some (NFloat 0)) (Range_min (NInt 0));
  fields_Float "total_il_high_credit_limit" false (Some (NFloat 0))
      (Range_min (NInt 0))].

Definition make_amounts_owed_credit_record (data : gmap string num) : result AmountsOwedCreditRecord.t :=
  AmountsOwedCreditRecord.__init__ data.

Definition load (data : gmap string num) : result AmountsOwedCreditRecord.t :=
  Schema_load declared_fields make_amounts_owed_credit_record data.

End AmountsOwedCreditRecordSchema.

Module HistoryLengthRecordSchema.

Definition declared_fields : list field :=
 [fields_Int "mo_sin_old_il_acct" false (Some (NInt 724))
      (Range_min_max (NInt 0) (NInt 724));
  fields_Int "mo_sin_old_rev_tl_op" false (Some (NInt 851))
      (Range_min_max (NInt 0) (NInt 851));
  fields_Int "age_earliest_cr_line" true None
      (Range_min_max (NInt 0) (NInt 890))].

Definition make_history_length_credit_record (data : gmap string num) : result HistoryLengthCreditRecord.t :=
  HistoryLengthCreditRecord.__init__ data.

Definition load (data : gmap string num) : result HistoryLengthCreditRecord.t :=
  Schema_load declared_fields make_history_length_credit_record data.

End HistoryLengthRecordSchema.

Module NewCreditRecordSchema.

Definition declared_fields : list field :=
 [fields_Int "inq_last_6mths" false (Some (NInt 0)) (Range_min (NInt 0));
  fields_Int "open_acc_6m" false (Some (NInt 0)) (Range_min (NInt 0));
  fields_Int "open_il_12m" false (Some (NInt 0)) (Range_min (NInt 0));
  fields_Int "open_il_24m" false (Some (NInt 0)) (Range_min (NInt 0));
  fields_Int "mths_since_rcnt_il" false (Some (NInt 507))
      (Range_min_max (NInt 0) (NInt 507));
  fields_Int "open_rv_12m" false (Some (NInt 0)) (Range_min (NInt 0));
  fields_Int "open_rv_24m" false (Some (NInt 0)) (Range_min (NInt 0));
  fields_Int "inq_fi" false (Some (NInt 0)) (Range_min (NInt 0));
  fields_Int "inq_last_12m" false (Some (NInt 0)) (Range_min (NInt 0));
  fields_Int "acc_open_past_24mths" false (Some (NInt 0)) (Range_min (NInt 0));
  fields_Int "mo_sin_rcnt_rev_tl_op" false (Some (NInt 502))
      (Range_min_max (NInt 0) (NInt 502));
  fields_Int "mo_sin_rcnt_tl" false (Some (NInt 368))
      (Range_min_max (NInt 0) (NInt 368));
  fields_Int "mths_since_recent_bc" false (Some (NInt 195))
      (Range_min_max (NInt 0) (NInt 195));
  fields_Int "mths_since_recent_inq" false (Some (NInt 25))
      (Range_min_max (NInt 0) (NInt 25))].

Definition make_new_credit_credit_record (data : gmap string num) : result NewCreditCreditRecord.t :=
  NewCreditCreditRecord.__init__ data.

Definition load (data : gmap string num) : result NewCreditCreditRecord.t :=
  Schema_load declared_fields make_new_credit_credit_record data.

End NewCreditRecordSchema.

Module CreditMixRecordSchema.

(** No field of this schema has a validator. *)
Definition declared_fields : list field :=
 [fields_Int "open_act_il" false (Some (NInt 0)) None;
  fields_Int "total_cu_tl" false (Some (NInt 0)) None;
  fields_Int "mort_acc" false (Some (NInt 0)) None;
  fields_Int "num_bc_sats" true None None;
  fields_Int "num_bc_tl" false (Some (NInt 0)) None;
  fields_Int "num_il_tl" false (Some (NInt 0)) None;
  fields_Int "num_op_rev_tl" false (Some (NInt 0)) None;
  fields_Int "num_rev_accts" false (Some (NInt 0)) None;
  fields_Int "num_tradelines" false (Some (NInt 0)) None].

Definition make_credit_mix_credit_record (data : gmap string num) : result CreditMixCreditRecord.t :=
  CreditMixCreditRecord.__init__ data.

Definition load (data : gmap string num) : result CreditMixCreditRecord.t :=
  Schema_load declared_fields make_credit_mix_credit_record data.

End CreditMixRecordSchema.

Module FicoCreditRecordSchema.

(** [fields.Nested(schema, required=True)] on the raw value under its
    [data_key]: the nested schema's [load] runs, its [post_load] included; a
    [ValidationError] of the nested load becomes the entry of this field in
    the error store, any other exception propagates. The raw value is taken
    to be a mapping. *)
Definition Nested_deserialize {R : Type} (load : gmap string num -> result R)
    (raw : option (gmap string num)) : result (R + messages) :=
  match raw with
  | None => Ok (inr (Messages [Required]))
  | Some value =>
      match load value with
      | Ok r => Ok (inl r)
      | Raise (ValidationError msgs) => Ok (inr (Nested msgs))
      | Raise e => Raise e
      end
  end.

Definition data_keys : list string :=
  ["paymentHistory"; "amountsOwed"; "historyLength"; "newCredit"; "creditMix"].

Definition store_error {R : Type} (key : string) (o : R + messages)
    (errors : gmap string messages) : gmap string messages :=
  match o with
  | inl _ => errors
  | inr msgs => <[key := msgs]> errors
  end.

Definition unknown (req_body : gmap string (gmap string num))
  : gmap string messages :=
  (fun _ => Messages [Unknown]) <$>
    filter (fun kv => kv.1 ∉ data_keys) req_body.

Definition make_credit_record
    (payment_history : PaymentHistoryCreditRecord.t)
    (amounts_owed : AmountsOwedCreditRecord.t)
    (history_length : HistoryLengthCreditRecord.t)
    (new_credit : NewCreditCreditRecord.t)
    (credit_mix : CreditMixCreditRecord.t) : result CreditRecord.t :=
  Ok (CreditRecord.Build payment_history amounts_owed history_length
        new_credit credit_mix).

Definition load (req_body : gmap string (gmap string num))
  : result CreditRecord.t :=
  ph ← Nested_deserialize PaymentHistoryCreditRecordSchema.load
         (req_body !! "paymentHistory");
  ao ← Nested_deserialize AmountsOwedCreditRecordSchema.load
         (req_body !! "amountsOwed");
  hl ← Nested_deserialize HistoryLengthRecordSchema.load
         (req_body !! "historyLength");
  nc ← Nested_deserialize NewCreditRecordSchema.load
         (req_body !! "newCredit");
  cm ← Nested_deserialize CreditMixRecordSchema.load
         (req_body !! "creditMix");
  let errors :=
    store_error "creditMix" cm
      (store_error "newCredit" nc
         (store_error "historyLength" hl
            (store_error "amountsOwed" ao
               (store_error "paymentHistory" ph ∅))))
    ∪ unknown req_body in
  match ph, ao, hl, nc, cm with
  | inl ph, inl ao, inl hl, inl nc, inl cm =>
      if decide (errors = ∅) then make_credit_record ph ao hl nc cm
      else Raise (ValidationError errors)
  | _, _, _, _, _ => Raise (ValidationError errors)
  end.

End FicoCreditRecordSchema.

(** ** The request handler *)

Section Main.

(** The trained model, as the integer it yields on the five vectors. *)
Variable fico_model : list (list Q) -> Z.

Definition fico_score (self : CreditRecord.t) : result Z :=
  inputs ← CreditRecord.inputs self;
  Ok (fico_model inputs).

(** The response of [main] on a parsed body: status 400 with the messages
    of the validation error, or status 200 with the score. *)
Inductive HttpResponse : Type :=
  | Response400 (msgs : gmap string messages)
  | Response200 (fico_score : Z).

Definition load_credit_record (req_body : gmap string (gmap string num))
  : result CreditRecord.t :=
  cr ← FicoCreditRecordSchema.load req_body;
  let '(cr, r) := CreditRecord.process cr in
  _ ← r;
  Ok cr.

Definition main (req_body : gmap string (gmap string num))
  : result HttpResponse :=
  match load_credit_record req_body with
  | Raise (ValidationError msgs) => Ok (Response400 msgs)
  | Raise e => Raise e
  | Ok cr =>
      score ← fico_score cr;
      Ok (Response200 score)
  end.

End Main.

(** ** What the validation rules say

    The rules of a field, stated on the raw input independently of the
    functions above: a field offends when it is required and absent, or when
    it is present and its converted value lies outside the declared range. *)

Definition in_range (r : Range) (v : num) : Prop :=
  (forall lo, min r = Some lo -> (num_Q lo <= num_Q v)%Q) /\
  (forall hi, max r = Some hi -> (num_Q v <= num_Q hi)%Q).

Definition missing_required (f : field) (data : gmap string num) : Prop :=
  required f = true /\ data !! name f = None.

Definition out_of_range (f : field) (data : gmap string num) : Prop :=
  exists value r,
    data !! name f = Some value /\ validate f = Some r /\
    ~ in_range r (Number_deserialize (ty f) value).

Definition offending (f : field) (data : gmap string num) : Prop :=
  missing_required f data \/ out_of_range f data.

(** The five categories, with the schema, the columns and the key of the
    request body of each. *)
Inductive category : Type :=
  | PaymentHistory
  | AmountsOwed
  | HistoryLength
  | NewCredit
  | CreditMix.

Definition schema_of (c : category) : list field :=
  match c with
  | PaymentHistory => PaymentHistoryCreditRecordSchema.declared_fields
  | AmountsOwed => AmountsOwedCreditRecordSchema.declared_fields
  | HistoryLength => HistoryLengthRecordSchema.declared_fields
  | NewCredit => NewCreditRecordSchema.declared_fields
  | CreditMix => CreditMixRecordSchema.declared_fields
  end.

Definition columns_of (c : category) : list string :=
  match c with
  | PaymentHistory => PaymentHistoryCreditRecord.__payment_history_columns__
  | AmountsOwed => AmountsOwedCreditRecord.__amounts_owed_columns__
  | HistoryLength => HistoryLengthCreditRecord.__history_length_columns__
  | NewCredit => NewCreditCreditRecord.__new_credit_columns__
  | CreditMix => CreditMixCreditRecord.__credit_mix_columns__
  end.

Definition data_key_of (c : category) : string :=
  match c with
  | PaymentHistory => "paymentHistory"
  | AmountsOwed => "amountsOwed"
  | HistoryLength => "historyLength"
  | NewCredit => "newCredit"
  | CreditMix => "creditMix"
  end.

(** Validate a raw mapping with the schema of the category, then read the
    [data] property of the record. *)
Definition load_data (c : category) (raw : gmap string num)
  : result (gmap string num) :=
  match c with
  | PaymentHistory =>
      r ← PaymentHistoryCreditRecordSchema.load raw;
      Ok (PaymentHistoryCreditRecord.data r)
  | AmountsOwed =>
      r ← AmountsOwedCreditRecordSchema.load raw;
      Ok (AmountsOwedCreditRecord.data r)
  | HistoryLength =>
      r ← HistoryLengthRecordSchema.load raw;
      Ok (HistoryLengthCreditRecord.data r)
  | NewCredit =>
      r ← NewCreditRecordSchema.load raw;
      Ok (NewCreditCreditRecord.data r)
  | CreditMix =>
      r ← CreditMixRecordSchema.load raw;
      Ok (CreditMixCreditRecord.data r)
  end.

(** A dict that some call of [__init__] over these columns has filled. *)
Definition constructed (columns : list string) (d : gmap string num) : Prop :=
  exists kwargs, init_data columns kwargs ∅ = Ok d.

(** A composite of five category records, each built by its [__init__]. *)
Definition valid (cr : CreditRecord.t) : Prop :=
  constructed (columns_of PaymentHistory)
    (PaymentHistoryCreditRecord.data (CreditRecord.payment_history cr)) /\
  constructed (columns_of AmountsOwed)
    (AmountsOwedCreditRecord.data (CreditRecord.amounts_owed cr)) /\
  constructed (columns_of HistoryLength)
    (HistoryLengthCreditRecord.data (CreditRecord.history_length cr)) /\
  constructed (columns_of NewCredit)
    (NewCreditCreditRecord.data (CreditRecord.new_credit cr)) /\
  constructed (columns_of CreditMix)
    (CreditMixCreditRecord.data (CreditRecord.credit_mix cr)).

(** Every field of the schema is required or has a [missing] value. *)
Definition complete (fs : list field) : Prop :=
  Forall (fun f => required f = true \/ is_Some (missing f)) fs.

(** The entry a nested field leaves in the error store, if any. *)
Definition err_of {R : Type} (o : R + messages) : option messages :=
  match o with
  | inl _ => None
  | inr msgs => Some msgs
  end.

(** What the block of a category in the request body has to answer for: it
    is absent, or it is there and its schema refuses it. *)
Definition block_error (c : category)
    (req_body : gmap string (gmap string num)) : option messages :=
  match req_body !! data_key_of c with
  | None => Some (Messages [Required])
  | Some d =>
      match load_data c d with
      | Raise (ValidationError msgs) => Some (Nested msgs)
      | _ => None
      end
  end.

(** ** What a vector is to look like *)



(** ** Sample inputs

    The smallest raw mappings the schemas accept (the required fields alone)
    and variations of them, used to run the pipeline on concrete data. *)

Definition minimal_payment_history : gmap string num :=
  list_to_map
    [("open_acc", NInt 1); ("num_sats", NInt 1);
     ("pct_tl_nvr_dlq", NInt 100); ("percent_bc_gt_75", NInt 0)].

Definition minimal_amounts_owed : gmap string num :=
  list_to_map
    [("tot_cur_bal", NFloat 0); ("all_util", NFloat 0);
     ("avg_cur_bal", NFloat 0); ("total_bal_ex_mort", NFloat 0)].

Definition minimal_history_length : gmap string num :=
  list_to_map [("age_earliest_cr_line", NInt 36)].

Definition minimal_new_credit : gmap string num := ∅.

Definition minimal_credit_mix : gmap string num :=
  list_to_map [("num_bc_sats", NInt 1)].

Definition minimal_body : gmap string (gmap string num) :=
  list_to_map
    [("paymentHistory", minimal_payment_history);
     ("amountsOwed", minimal_amounts_owed);
     ("historyLength", minimal_history_length);
     ("newCredit", minimal_new_credit);
     ("creditMix", minimal_credit_mix)].

(** A Payment History with a delinquency and a public record three months
    ago. *)
Definition delinquent_payment_history : gmap string num :=
  <["mths_since_last_delinq" := NInt 3]>
    (<["mths_since_last_record" := NInt 3]> minimal_payment_history).

(** A Payment History without delinquency and with a collection amount
    of 2. *)
Definition collections_payment_history : gmap string num :=
  <["tot_coll_amt" := NInt 2]> minimal_payment_history.

(** Keyword arguments for [PaymentHistoryCreditRecord] given directly, with
    a float [tot_coll_amt]. *)
Definition float_collections_kwargs : gmap string num :=
  list_to_map
    [("delinq_2yrs", NInt 0); ("mths_since_last_delinq", NInt 226);
     ("mths_since_last_record", NInt 124); ("open_acc", NInt 1);
     ("pub_rec", NInt 0); ("collections_12_mths_ex_med", NInt 0);
     ("mths_since_last_major_derog", NInt 226); ("acc_now_delinq", NInt 0);
     ("tot_coll_amt", NFloat 5); ("chargeoff_within_12_mths", NInt 0);
     ("delinq_amnt", NInt 0); ("mths_since_recent_bc_dlq", NInt 195);
     ("mths_since_recent_revol_delinq", NInt 176);
     ("num_accts_ever_120_pd", NInt 0); ("num_actv_bc_tl", NInt 0);
     ("num_actv_rev_tl", NInt 0); ("num_rev_tl_bal_gt_0", NInt 0);
     ("num_sats", NInt 1); ("num_tl_120dpd_2m", NInt 0);
     ("num_tl_30dpd", NInt 0); ("num_tl_90g_dpd_24m", NInt 0);
     ("num_tl_op_past_12m", NInt 0); ("pct_tl_nvr_dlq", NInt 100);
     ("percent_bc_gt_75", NInt 0); ("pub_rec_bankruptcies", NInt 0);
     ("tax_liens", NInt 0)].

(** A Payment History with two faults: the required [num_sats] is absent
    and [open_acc] is negative. *)
Definition faulty_payment_history : gmap string num :=
  <["open_acc" := NInt (-1)]> (delete "num_sats" minimal_payment_history).

(** A request body whose Payment History block has the two faults. *)
Definition faulty_body : gmap string (gmap string num) :=
  <["paymentHistory" := faulty_payment_history]> minimal_body.

(** * Properties *)

(** ** Comparisons *)

Lemma Qle_bool_inject_Z (a b : Z) :
  Qle_bool (inject_Z a) (inject_Z b) = (a <=? b).
Proof. unfold Qle_bool; simpl. by rewrite !Z.mul_1_r. Qed.

Lemma num_leb_NInt (a b : Z) : num_leb (NInt a) (NInt b) = (a <=? b).
Proof. apply Qle_bool_inject_Z. Qed.

Lemma num_geb_NInt (a b : Z) : num_geb (NInt a) (NInt b) = (b <=? a).
Proof. apply Qle_bool_inject_Z. Qed.

Lemma num_ltb_NInt (a b : Z) : num_ltb (NInt a) (NInt b) = (a <? b).
Proof.
  unfold num_ltb, Qlt_bool; simpl. rewrite Qle_bool_inject_Z.
  by rewrite Z.ltb_antisym.
Qed.

Lemma num_gtb_NInt (a b : Z) : num_gtb (NInt a) (NInt b) = (b <? a).
Proof. apply num_ltb_NInt. Qed.

Lemma num_eqb_NInt (a b : Z) : num_eqb (NInt a) (NInt b) = (a =? b).
Proof. unfold num_eqb, Qeq_bool; simpl. by rewrite !Z.mul_1_r. Qed.

Lemma num_leb_spec (a b : num) : num_leb a b = true <-> (num_Q a <= num_Q b)%Q.
Proof. apply Qle_bool_iff. Qed.

Lemma num_ltb_spec (a b : num) : num_ltb a b = true <-> (num_Q a < num_Q b)%Q.
Proof.
  unfold num_ltb, Qlt_bool. rewrite negb_true_iff, <- not_true_iff_false.
  rewrite Qle_bool_iff. split; [apply Qnot_le_lt | apply Qlt_not_le].
Qed.

(** ** The monad *)

Lemma bind_Ok {A B : Type} (m : result A) (f : A -> result B) (b : B) :
  m ≫= f = Ok b <-> exists a, m = Ok a /\ f a = Ok b.
Proof.
  destruct m as [a|e]; simpl; split.
  - intros H; by exists a.
  - by intros (a' & [= <-] & H).
  - done.
  - by intros (a' & [=] & _).
Qed.

(** ** Construction of a record *)

Lemma init_data_lookup (columns : list string) (kwargs d0 d : gmap string num)
    (k : string) :
  init_data columns kwargs d0 = Ok d ->
  d !! k = if decide (k ∈ columns) then kwargs !! k else d0 !! k.
Proof.
  revert d0. induction columns as [|c columns IH]; intros d0; cbn [init_data].
  - intros [= <-]. case_decide as Hk; [by apply not_elem_of_nil in Hk | done].
  - destruct (kwargs !! c) as [v|] eqn:Hc; [|done].
    intros H. rewrite (IH _ H). destruct (decide (k = c)) as [->|Hne].
    + rewrite (decide_True (P := c ∈ c :: columns)) by apply list_elem_of_here.
      case_decide; [done|]. by rewrite lookup_insert_eq.
    + rewrite lookup_insert_ne by done.
      destruct (decide (k ∈ columns)) as [Hin|Hin].
      * rewrite decide_True; [done | by apply list_elem_of_further].
      * rewrite decide_False; [done|]. by intros [?|?]%elem_of_cons.
Qed.

Lemma init_data_Ok (columns : list string) (kwargs d0 : gmap string num) :
  (forall k, k ∈ columns -> is_Some (kwargs !! k)) ->
  exists d, init_data columns kwargs d0 = Ok d.
Proof.
  revert d0. induction columns as [|c columns IH]; intros d0 Hall; simpl.
  - by exists d0.
  - destruct (Hall c) as [v ->]; [apply list_elem_of_here|].
    apply IH. intros k Hk. apply Hall. by apply list_elem_of_further.
Qed.

Lemma init_data_inv (columns : list string) (kwargs d0 d : gmap string num) :
  init_data columns kwargs d0 = Ok d ->
  forall k, k ∈ columns -> is_Some (kwargs !! k).
Proof.
  revert d0. induction columns as [|c columns IH]; intros d0; simpl.
  - intros _ k Hk. by apply not_elem_of_nil in Hk.
  - destruct (kwargs !! c) as [v|] eqn:Hc; [|done].
    intros H k [->|Hk]%elem_of_cons; [by rewrite Hc | by eapply IH].
Qed.

(** ** Reading the columns back *)

Lemma append_columns_Ok (columns : list string) (d : gmap string num)
    (vs : list num) :
  append_columns columns d = Ok vs <->
  Forall2 (fun k v => d !! k = Some v) columns vs.
Proof.
  revert vs. induction columns as [|c columns IH]; intros vs; simpl.
  - split; [intros [= <-]; constructor | by intros ->%Forall2_nil_inv_l].
  - unfold getitem. destruct (d !! c) as [v|] eqn:Hc; simpl.
    + destruct (append_columns columns d) as [ws|e] eqn:Hws; simpl.
      * split.
        -- intros [= <-]. constructor; [done | by apply IH].
        -- intros (v' & ws' & Hv & Hf & ->)%Forall2_cons_inv_l.
           apply IH in Hf. congruence.
      * split; [done|].
        intros (v' & ws' & Hv & Hf & ->)%Forall2_cons_inv_l.
        apply IH in Hf. congruence.
    + split; [done|].
      intros (v' & ws' & Hv & Hf & ->)%Forall2_cons_inv_l. congruence.
Qed.

Lemma append_columns_total (columns : list string) (d : gmap string num) :
  (forall k, k ∈ columns -> is_Some (d !! k)) ->
  exists vs, append_columns columns d = Ok vs /\ length vs = length columns.
Proof.
  induction columns as [|c columns IH]; intros Hall; simpl.
  - by exists [].
  - destruct (Hall c) as [v Hv]; [apply list_elem_of_here|].
    destruct IH as (vs & Hvs & Hlen).
    { intros k Hk. apply Hall. by apply list_elem_of_further. }
    exists (v :: vs). unfold getitem. rewrite Hv; simpl. rewrite Hvs; simpl.
    by rewrite Hlen.
Qed.

(** ** Validation of one field *)

Lemma Range_call_None (r : Range) (v : num) :
  Range_call r v = None <-> in_range r v.
Proof.
  unfold Range_call, in_range, num_gtb.
  destruct (min r) as [lo|], (max r) as [hi|];
    repeat match goal with
    | |- context [num_ltb ?a ?b] =>
        let H := fresh "H" in
        destruct (num_ltb a b) eqn:H;
        [apply num_ltb_spec in H
        |apply not_true_iff_false in H; rewrite num_ltb_spec in H;
         apply Qnot_lt_le in H]
    end;
    split; try done; try (intros [H1 H2]; exfalso);
    try (intros _; split; [intros ? [= <-] | intros ? [= <-]]; done);
    try (intros _; split; intros ? [=]; by subst).
  - eapply Qlt_not_le; [exact H | by apply H1].
  - eapply Qlt_not_le; [exact H0 | by apply H2].
  - eapply Qlt_not_le; [exact H | by apply H1].
  - eapply Qlt_not_le; [exact H | by apply H2].
Qed.

Lemma Range_call_Some (r : Range) (v : num) (msg : message) :
  Range_call r v = Some msg -> msg = NotInRange (min r) (max r).
Proof.
  unfold Range_call.
  destruct (min r), (max r); repeat case_match; congruence.
Qed.

Lemma Field_deserialize_Invalid (f : field) (data : gmap string num) :
  (exists msgs, Field_deserialize f (data !! name f) = Invalid msgs) <->
  offending f data.
Proof.
  unfold Field_deserialize, offending, missing_required, out_of_range.
  destruct (data !! name f) as [value|] eqn:Hv.
  - destruct (validate f) as [r|] eqn:Hr.
    + destruct (Range_call r _) as [msg|] eqn:Hc.
      * split; [intros _; right | by eauto].
        exists value, r. repeat split; try done.
        rewrite <- Range_call_None. congruence.
      * apply Range_call_None in Hc. split; [by intros [? [=]]|].
        intros [[_ [=]]|(v' & r' & [= <-] & [= <-] & Hn)]. done.
    + split; [by intros [? [=]]|].
      by intros [[_ [=]]|(v' & r' & _ & [=] & _)].
  - destruct (required f); [split; eauto|].
    split.
    + destruct (missing f); by intros [? [=]].
    + by intros [[[=] _]|(v' & r' & [=] & _)].
Qed.

Lemma Field_deserialize_msgs (f : field) (raw : option num)
    (msgs : list message) :
  Field_deserialize f raw = Invalid msgs -> msgs <> [].
Proof.
  unfold Field_deserialize. repeat case_match; by intros [= <-].
Qed.

Lemma Field_deserialize_Absent (f : field) (raw : option num) :
  required f = true \/ is_Some (missing f) ->
  Field_deserialize f raw <> Absent.
Proof.
  unfold Field_deserialize. intros [Hr|[d Hd]]; repeat case_match; congruence.
Qed.

(** ** The loop over the declared fields *)

Lemma Schema_fields_notin (fs : list field) (data ret : gmap string num)
    (errors : gmap string (list message)) (k : string) :
  k ∉ name <$> fs ->
  (Schema_fields fs data ret errors).1 !! k = ret !! k /\
  (Schema_fields fs data ret errors).2 !! k = errors !! k.
Proof.
  revert ret errors. induction fs as [|f fs IH]; intros ret errors Hk; [done|].
  rewrite fmap_cons, not_elem_of_cons in Hk. destruct Hk as [Hne Hk].
  cbn [Schema_fields]. destruct (Field_deserialize f _);
    destruct (IH ret errors Hk) as [IH1 IH2];
    try destruct (IH (<[name f := v]> ret) errors Hk) as [IH3 IH4];
    try destruct (IH ret (<[name f := msgs]> errors) Hk) as [IH5 IH6];
    split; try done.
  - by rewrite IH3, lookup_insert_ne.
  - by rewrite IH6, lookup_insert_ne.
Qed.

Lemma Schema_fields_in (fs : list field) (data ret : gmap string num)
    (errors : gmap string (list message)) (f : field) :
  NoDup (name <$> fs) -> f ∈ fs ->
  (Schema_fields fs data ret errors).1 !! name f =
    match Field_deserialize f (data !! name f) with
    | Value v => Some v
    | _ => ret !! name f
    end /\
  (Schema_fields fs data ret errors).2 !! name f =
    match Field_deserialize f (data !! name f) with
    | Invalid msgs => Some msgs
    | _ => errors !! name f
    end.
Proof.
  revert ret errors. induction fs as [|g fs IH]; intros ret errors Hnd Hf.
  { by apply elem_of_nil in Hf. }
  rewrite fmap_cons in Hnd. apply NoDup_cons in Hnd as [Hg Hnd].
  apply elem_of_cons in Hf as [->|Hf].
  - cbn [Schema_fields]. destruct (Field_deserialize g _) eqn:Hd.
    + destruct (Schema_fields_notin fs data (<[name g := v]> ret) errors
                  (name g) Hg) as [-> ->].
      by rewrite lookup_insert_eq.
    + by destruct (Schema_fields_notin fs data ret errors (name g) Hg)
        as [-> ->].
    + destruct (Schema_fields_notin fs data ret (<[name g := msgs]> errors)
                  (name g) Hg) as [-> ->].
      by rewrite lookup_insert_eq.
  - assert (name f <> name g) as Hne.
    { intros Heq. apply Hg. rewrite <- Heq. by apply list_elem_of_fmap_2. }
    cbn [Schema_fields]. destruct (Field_deserialize g _) eqn:Hd.
    + destruct (IH (<[name g := v]> ret) errors Hnd Hf) as [-> ->].
      by rewrite lookup_insert_ne.
    + by destruct (IH ret errors Hnd Hf) as [-> ->].
    + destruct (IH ret (<[name g := msgs]> errors) Hnd Hf) as [-> ->].
      by rewrite lookup_insert_ne.
Qed.


(** ** Loading a schema *)

Lemma Schema_unknown_None (fs : list field) (data : gmap string num)
    (k : string) :
  Schema_unknown fs data !! k = None <->
  (is_Some (data !! k) -> k ∈ name <$> fs).
Proof.
  unfold Schema_unknown. rewrite lookup_fmap, fmap_None, map_lookup_filter_None.
  split.
  - intros [Hk|Hk] [v Hv]; [congruence|].
    specialize (Hk v Hv). simpl in Hk.
    by destruct (decide (k ∈ name <$> fs)).
  - intros Hk. destruct (data !! k) as [v|] eqn:Hv; [right | by left].
    intros v' _ Hn. simpl in Hn. apply Hn, Hk. by eexists.
Qed.

Lemma Schema_unknown_Some (fs : list field) (data : gmap string num)
    (k : string) (msgs : list message) :
  Schema_unknown fs data !! k = Some msgs ->
  msgs = [Unknown] /\ k ∉ name <$> fs.
Proof.
  unfold Schema_unknown. rewrite lookup_fmap, fmap_Some.
  intros (v & (_ & Hk)%map_lookup_filter_Some & ->). done.
Qed.

Lemma Schema_deserialize_eq (fs : list field) (data : gmap string num) :
  Schema_deserialize fs data =
    ((Schema_fields fs data ∅ ∅).1,
     (Schema_fields fs data ∅ ∅).2 ∪ Schema_unknown fs data).
Proof. unfold Schema_deserialize. by destruct (Schema_fields fs data ∅ ∅). Qed.

(** The error store of a schema holds exactly the offending fields and the
    undeclared keys. *)
Lemma Schema_errors_field (fs : list field) (data : gmap string num)
    (f : field) :
  NoDup (name <$> fs) -> f ∈ fs ->
  (Schema_deserialize fs data).2 !! name f =
    match Field_deserialize f (data !! name f) with
    | Invalid msgs => Some msgs
    | _ => None
    end.
Proof.
  intros Hnd Hf. rewrite Schema_deserialize_eq. cbn [snd].
  destruct (Schema_fields_in fs data ∅ ∅ f Hnd Hf) as [_ He].
  rewrite lookup_union, He, lookup_empty.
  assert (Schema_unknown fs data !! name f = None) as ->.
  { apply Schema_unknown_None. intros _. by apply list_elem_of_fmap_2. }
  by destruct (Field_deserialize f _).
Qed.

Lemma Schema_errors_empty (fs : list field) (data : gmap string num) :
  NoDup (name <$> fs) ->
  (Schema_deserialize fs data).2 = ∅ <->
  (forall f, f ∈ fs -> ~ offending f data) /\
  (forall k, is_Some (data !! k) -> k ∈ name <$> fs).
Proof.
  intros Hnd. rewrite map_empty. split.
  - intros He. split.
    + intros f Hf [msgs Hoff]%Field_deserialize_Invalid.
      specialize (He (name f)).
      rewrite (Schema_errors_field fs data f Hnd Hf), Hoff in He. done.
    + intros k. apply Schema_unknown_None. specialize (He k).
      rewrite Schema_deserialize_eq in He. cbn [snd] in He.
      by apply lookup_union_None in He as [_ ?].
  - intros [Hoff Hunk] k.
    destruct (decide (k ∈ name <$> fs)) as [Hk|Hk].
    + apply list_elem_of_fmap in Hk as (f & -> & Hf).
      rewrite (Schema_errors_field fs data f Hnd Hf).
      destruct (Field_deserialize f _) eqn:Hd; try done.
      exfalso. apply (Hoff f Hf), Field_deserialize_Invalid. by eexists.
    + rewrite Schema_deserialize_eq. cbn [snd]. apply lookup_union_None. split.
      * destruct (Schema_fields_notin fs data ∅ ∅ k Hk) as [_ ->]. apply lookup_empty.
      * rewrite Schema_unknown_None. apply Hunk.
Qed.

Lemma Schema_load_Ok {R : Type} (fs : list field)
    (post_load : gmap string num -> result R) (data : gmap string num) (r : R) :
  NoDup (name <$> fs) ->
  Schema_load fs post_load data = Ok r <->
  post_load (Schema_fields fs data ∅ ∅).1 = Ok r /\
  (forall f, f ∈ fs -> ~ offending f data) /\
  (forall k, is_Some (data !! k) -> k ∈ name <$> fs).
Proof.
  intros Hnd. rewrite <- (Schema_errors_empty fs data Hnd).
  unfold Schema_load. rewrite Schema_deserialize_eq. cbn [snd].
  case_decide as He; split; try done.
  - by intros [H _].
  - by intros [_ ?].
Qed.

(** A failing load raises one [ValidationError] whose messages have an entry
    for every offending field. *)
Lemma Schema_load_Raise {R : Type} (fs : list field)
    (post_load : gmap string num -> result R) (data : gmap string num) :
  NoDup (name <$> fs) ->
  (exists f, f ∈ fs /\ offending f data) ->
  exists msgs,
    Schema_load fs post_load data = Raise (ValidationError msgs) /\
    forall g, g ∈ fs -> offending g data ->
      exists l, msgs !! name g = Some (Messages l) /\ l <> [].
Proof.
  intros Hnd (f & Hf & Hoff).
  exists (Messages <$> (Schema_deserialize fs data).2). split.
  - unfold Schema_load. destruct (Schema_deserialize fs data) as [ret errors] eqn:Hd.
    cbn [snd]. case_decide as He; [|done].
    exfalso. assert ((Schema_deserialize fs data).2 = ∅) as He' by by rewrite Hd.
    apply (Schema_errors_empty fs data Hnd) in He' as [Hno _]. by apply (Hno f).
  - intros g Hg [l Hl]%Field_deserialize_Invalid. exists l. split.
    + by rewrite lookup_fmap, (Schema_errors_field fs data g Hnd Hg), Hl.
    + by eapply Field_deserialize_msgs.
Qed.

(** ** The five schemas *)

Lemma schema_NoDup (c : category) : NoDup (name <$> schema_of c).
Proof. destruct c; apply (bool_decide_unpack _); by vm_compute. Qed.

Lemma schema_complete (c : category) : complete (schema_of c).
Proof.
  destruct c; unfold complete;
    repeat (constructor; [first [by left | right; by eexists]|]);
    constructor.
Qed.

Lemma columns_declared (c : category) (k : string) :
  k ∈ columns_of c -> k ∈ name <$> schema_of c.
Proof.
  revert k. apply Forall_forall.
  destruct c; apply (bool_decide_unpack _); by vm_compute.
Qed.

(** The columns are the declared fields in their order; the schema of
    Payment History declares one field more, ahead of them. *)
Lemma schema_order (c : category) :
  name <$> schema_of c =
    match c with
    | PaymentHistory => "revol_bal" :: columns_of c
    | _ => columns_of c
    end.
Proof. by destruct c. Qed.

Lemma columns_NoDup (c : category) : NoDup (columns_of c).
Proof. destruct c; apply (bool_decide_unpack _); by vm_compute. Qed.

(** ** From raw input to the data of the record *)

Lemma load_data_eq (c : category) (raw : gmap string num) :
  load_data c raw =
    Schema_load (schema_of c) (fun ret => init_data (columns_of c) ret ∅) raw.
Proof.
  destruct c; cbn [load_data schema_of columns_of];
    unfold PaymentHistoryCreditRecordSchema.load,
      AmountsOwedCreditRecordSchema.load, HistoryLengthRecordSchema.load,
      NewCreditRecordSchema.load, CreditMixRecordSchema.load, Schema_load;
    destruct (Schema_deserialize _ raw) as [ret errors];
    (case_decide; [|done]);
    unfold PaymentHistoryCreditRecordSchema.make_payment_history_credit_record,
      AmountsOwedCreditRecordSchema.make_amounts_owed_credit_record,
      HistoryLengthRecordSchema.make_history_length_credit_record,
      NewCreditRecordSchema.make_new_credit_credit_record,
      CreditMixRecordSchema.make_credit_mix_credit_record,
      PaymentHistoryCreditRecord.__init__, AmountsOwedCreditRecord.__init__,
      HistoryLengthCreditRecord.__init__, NewCreditCreditRecord.__init__,
      CreditMixCreditRecord.__init__;
    by destruct (init_data _ ret ∅).
Qed.

Lemma load_data_Ok (c : category) (raw d : gmap string num) :
  load_data c raw = Ok d <->
  init_data (columns_of c) (Schema_fields (schema_of c) raw ∅ ∅).1 ∅ = Ok d /\
  (forall f, f ∈ schema_of c -> ~ offending f raw) /\
  (forall k, is_Some (raw !! k) -> k ∈ name <$> schema_of c).
Proof. rewrite load_data_eq. apply Schema_load_Ok, schema_NoDup. Qed.

(** The value a clean field leaves in the result dict. *)
Lemma Schema_fields_value (fs : list field) (raw : gmap string num) (f : field) :
  NoDup (name <$> fs) -> f ∈ fs -> ~ offending f raw ->
  (Schema_fields fs raw ∅ ∅).1 !! name f =
    match raw !! name f with
    | Some value => Some (Number_deserialize (ty f) value)
    | None => missing f
    end.
Proof.
  intros Hnd Hf Hoff.
  destruct (Schema_fields_in fs raw ∅ ∅ f Hnd Hf) as [-> _].
  rewrite <- Field_deserialize_Invalid in Hoff.
  revert Hoff. unfold Field_deserialize.
  destruct (raw !! name f) as [value|].
  - destruct (validate f) as [r|]; [|done].
    destruct (Range_call r _); [|done]. intros []. by eexists.
  - destruct (required f); [intros []; by eexists|].
    by destruct (missing f).
Qed.

(** A raw mapping without offending field and without undeclared key loads:
    the [post_load] hook finds every column and its assertion holds. *)
Lemma load_data_total (c : category) (raw : gmap string num) :
  (forall f, f ∈ schema_of c -> ~ offending f raw) ->
  (forall k, is_Some (raw !! k) -> k ∈ name <$> schema_of c) ->
  exists d, load_data c raw = Ok d.
Proof.
  intros Hoff Hunk.
  destruct (init_data_Ok (columns_of c)
              (Schema_fields (schema_of c) raw ∅ ∅).1 ∅) as [d Hd].
  - intros k Hk. apply columns_declared, list_elem_of_fmap in Hk
      as (f & -> & Hf).
    rewrite (Schema_fields_value _ raw f (schema_NoDup c) Hf (Hoff f Hf)).
    destruct (raw !! name f) eqn:Hraw; [done|].
    pose proof (schema_complete c) as Hc. unfold complete in Hc.
    rewrite Forall_forall in Hc. destruct (Hc f Hf) as [Hr|Hm]; [|done].
    exfalso. apply (Hoff f Hf). by left.
  - exists d. by apply load_data_Ok.
Qed.

Lemma load_data_lookup (c : category) (raw d : gmap string num) (f : field) :
  load_data c raw = Ok d -> f ∈ schema_of c -> name f ∈ columns_of c ->
  d !! name f =
    match raw !! name f with
    | Some value => Some (Number_deserialize (ty f) value)
    | None => missing f
    end.
Proof.
  intros (Hd & Hoff & _)%load_data_Ok Hf Hk.
  rewrite (init_data_lookup _ _ _ _ (name f) Hd), decide_True by done.
  apply Schema_fields_value; [apply schema_NoDup | done | by apply Hoff].
Qed.

Lemma load_data_dom (c : category) (raw d : gmap string num) (k : string) :
  load_data c raw = Ok d -> is_Some (d !! k) <-> k ∈ columns_of c.
Proof.
  intros (Hd & _ & _)%load_data_Ok.
  rewrite (init_data_lookup _ _ _ _ k Hd). case_decide as Hk.
  - split; [done|]. intros _. by eapply init_data_inv.
  - rewrite lookup_empty. split; [by intros [? [=]] | done].
Qed.

Lemma load_data_constructed (c : category) (raw d : gmap string num) :
  load_data c raw = Ok d -> constructed (columns_of c) d.
Proof. intros (Hd & _ & _)%load_data_Ok. by eexists. Qed.

(** A value that passed validation lies in the declared range. *)
Lemma load_data_in_range (c : category) (raw d : gmap string num) (f : field)
    (value : num) (r : Range) :
  load_data c raw = Ok d -> f ∈ schema_of c ->
  raw !! name f = Some value -> validate f = Some r ->
  in_range r (Number_deserialize (ty f) value).
Proof.
  intros (_ & Hoff & _)%load_data_Ok Hf Hv Hr.
  destruct (Range_call r (Number_deserialize (ty f) value)) as [msg|] eqn:Hc.
  - exfalso. apply (Hoff f Hf). right. exists value, r. repeat split; try done.
    rewrite <- Range_call_None. congruence.
  - by apply Range_call_None.
Qed.

(** A load either yields a record or raises a [ValidationError]: the
    assertion of [__init__] cannot fail behind a schema. *)
Lemma load_data_cases (c : category) (raw : gmap string num) :
  (exists d, load_data c raw = Ok d) \/
  (exists msgs, load_data c raw = Raise (ValidationError msgs)).
Proof.
  destruct (decide ((Schema_deserialize (schema_of c) raw).2 = ∅)) as [He|He].
  - left. apply (Schema_errors_empty _ _ (schema_NoDup c)) in He as [Hoff Hunk].
    by apply load_data_total.
  - right. rewrite load_data_eq. unfold Schema_load.
    destruct (Schema_deserialize (schema_of c) raw) as [ret errors].
    cbn [snd] in He. rewrite decide_False by done. by eexists.
Qed.

(** The record behind the data. *)
Lemma PaymentHistory_load (raw : gmap string num)
    (r : PaymentHistoryCreditRecord.t) :
  PaymentHistoryCreditRecordSchema.load raw = Ok r ->
  load_data PaymentHistory raw = Ok (PaymentHistoryCreditRecord.data r).
Proof. intros H. cbn [load_data]. by rewrite H. Qed.

Lemma AmountsOwed_load (raw : gmap string num) (r : AmountsOwedCreditRecord.t) :
  AmountsOwedCreditRecordSchema.load raw = Ok r ->
  load_data AmountsOwed raw = Ok (AmountsOwedCreditRecord.data r).
Proof. intros H. cbn [load_data]. by rewrite H. Qed.

Lemma HistoryLength_load (raw : gmap string num)
    (r : HistoryLengthCreditRecord.t) :
  HistoryLengthRecordSchema.load raw = Ok r ->
  load_data HistoryLength raw = Ok (HistoryLengthCreditRecord.data r).
Proof. intros H. cbn [load_data]. by rewrite H. Qed.

Lemma NewCredit_load (raw : gmap string num) (r : NewCreditCreditRecord.t) :
  NewCreditRecordSchema.load raw = Ok r ->
  load_data NewCredit raw = Ok (NewCreditCreditRecord.data r) /\
  NewCreditCreditRecord.has_new_revolver r = None.
Proof.
  intros H. cbn [load_data]. rewrite H. split; [done|].
  revert H. unfold NewCreditRecordSchema.load, Schema_load.
  destruct (Schema_deserialize _ raw) as [ret errors].
  case_decide; [|done].
  unfold NewCreditRecordSchema.make_new_credit_credit_record,
    NewCreditCreditRecord.__init__.
  destruct (init_data _ ret ∅); [|done]. by intros [= <-].
Qed.

Lemma CreditMix_load (raw : gmap string num) (r : CreditMixCreditRecord.t) :
  CreditMixRecordSchema.load raw = Ok r ->
  load_data CreditMix raw = Ok (CreditMixCreditRecord.data r) /\
  CreditMixCreditRecord.no_revol_util r = None.
Proof.
  intros H. cbn [load_data]. rewrite H. split; [done|].
  revert H. unfold CreditMixRecordSchema.load, Schema_load.
  destruct (Schema_deserialize _ raw) as [ret errors].
  case_decide; [|done].
  unfold CreditMixRecordSchema.make_credit_mix_credit_record,
    CreditMixCreditRecord.__init__.
  destruct (init_data _ ret ∅); [|done]. by intros [= <-].
Qed.

(** Membership of a concrete field in a concrete schema. *)
Ltac declared :=
  cbn [schema_of];
  unfold PaymentHistoryCreditRecordSchema.declared_fields,
    AmountsOwedCreditRecordSchema.declared_fields,
    HistoryLengthRecordSchema.declared_fields,
    NewCreditRecordSchema.declared_fields,
    CreditMixRecordSchema.declared_fields;
  repeat first [apply list_elem_of_here | apply list_elem_of_further].

Ltac column :=
  cbn [columns_of name fields_Int fields_Float];
  unfold PaymentHistoryCreditRecord.__payment_history_columns__,
    AmountsOwedCreditRecord.__amounts_owed_columns__,
    HistoryLengthCreditRecord.__history_length_columns__,
    NewCreditCreditRecord.__new_credit_columns__,
    CreditMixCreditRecord.__credit_mix_columns__;
  repeat first [apply list_elem_of_here | apply list_elem_of_further].

(** ** Payment History: the derived properties *)

Lemma in_range_Int (lo hi z : Z) :
  in_range (validate_Range (Some (NInt lo)) (Some (NInt hi))) (NInt z) ->
  lo <= z <= hi.
Proof.
  intros [H1 H2]. specialize (H1 _ eq_refl). specialize (H2 _ eq_refl).
  simpl in H1, H2. rewrite <- Zle_Qle in H1, H2. lia.
Qed.

Lemma loaded_mths_since_last_delinq (raw : gmap string num)
    (r : PaymentHistoryCreditRecord.t) :
  PaymentHistoryCreditRecordSchema.load raw = Ok r ->
  exists z,
    PaymentHistoryCreditRecord.data r !! "mths_since_last_delinq"
      = Some (NInt z) /\
    0 <= z <= 226 /\
    match raw !! "mths_since_last_delinq" with
    | Some value => z = to_int value
    | None => z = 226
    end.
Proof.
  intros H%PaymentHistory_load.
  set (f := fields_Int "mths_since_last_delinq" false (Some (NInt 226))
              (Range_min_max (NInt 0) (NInt 226))).
  assert (f ∈ schema_of PaymentHistory) as Hf by (subst f; declared).
  assert (name f ∈ columns_of PaymentHistory) as Hk by (subst f; column).
  pose proof (load_data_lookup _ _ _ f H Hf Hk) as Hl.
  change (name f) with "mths_since_last_delinq" in Hl.
  destruct (raw !! "mths_since_last_delinq") as [value|] eqn:Hraw.
  - exists (to_int value). split; [done|]. split; [|done].
    apply in_range_Int.
    by apply (load_data_in_range _ _ _ f value _ H Hf Hraw).
  - exists 226. split; [done|]. split; [lia | done].
Qed.

Lemma never_delinq_eval (self : PaymentHistoryCreditRecord.t) (z : Z) :
  PaymentHistoryCreditRecord.data self !! "mths_since_last_delinq"
    = Some (NInt z) ->
  PaymentHistoryCreditRecord.never_delinq self = Ok (226 <=? z).
Proof.
  intros H. unfold PaymentHistoryCreditRecord.never_delinq, getitem.
  rewrite H. simpl. by rewrite num_geb_NInt.
Qed.

Lemma has_recent_delinq_eval (self : PaymentHistoryCreditRecord.t) (z : Z) :
  PaymentHistoryCreditRecord.data self !! "mths_since_last_delinq"
    = Some (NInt z) ->
  PaymentHistoryCreditRecord.has_recent_delinq self = Ok (12 <=? z).
Proof.
  intros H. unfold PaymentHistoryCreditRecord.has_recent_delinq, getitem.
  rewrite H. simpl. by rewrite num_geb_NInt.
Qed.

Lemma has_recent_pr_eval (self : PaymentHistoryCreditRecord.t) (z : Z) :
  PaymentHistoryCreditRecord.data self !! "mths_since_last_record"
    = Some (NInt z) ->
  PaymentHistoryCreditRecord.has_recent_pr self = Ok (12 <=? z).
Proof.
  intros H. unfold PaymentHistoryCreditRecord.has_recent_pr, getitem.
  rewrite H. simpl. by rewrite num_geb_NInt.
Qed.

Lemma land_b2z_eqb (b : bool) (z : Z) :
  (Z.land (Z.b2z b) z =? 0) = negb b || Z.even z.
Proof.
  destruct b; simpl Z.b2z; cbn [negb orb].
  - rewrite Z.land_comm. change 1 with (Z.ones 1).
    rewrite Z.land_ones by lia. change (2 ^ 1) with 2.
    rewrite <- Z.bit0_mod, Z.bit0_odd, <- Z.negb_odd.
    by destruct (Z.odd z).
  - by rewrite Z.land_0_l.
Qed.

(** What [is_clean] computes: true when the record has a delinquency, and
    otherwise true when [tot_coll_amt] is even. *)
Lemma is_clean_eval (self : PaymentHistoryCreditRecord.t) (z amt : Z) :
  PaymentHistoryCreditRecord.data self !! "mths_since_last_delinq"
    = Some (NInt z) ->
  PaymentHistoryCreditRecord.data self !! "tot_coll_amt" = Some (NInt amt) ->
  PaymentHistoryCreditRecord.is_clean self
    = Ok (negb (226 <=? z) || Z.even amt).
Proof.
  intros Hz Hamt. unfold PaymentHistoryCreditRecord.is_clean.
  rewrite (never_delinq_eval self z Hz). simpl. unfold getitem.
  rewrite Hamt. simpl. by rewrite num_eqb_NInt, land_b2z_eqb.
Qed.

Lemma is_Ok_true {A : Type} (r : result A) :
  is_Ok r = true -> exists a, r = Ok a.
Proof. destruct r as [a|e]; [by exists a | done]. Qed.

(** C1, at two validated inputs. The claim makes [is_clean] the conjunction
    of [never_delinq] and [tot_coll_amt == 0]; the expression of the source
    parses as [(never_delinq & tot_coll_amt) == 0]. Each line loads a raw
    mapping and reads [never_delinq], [tot_coll_amt] and [is_clean] off the
    record. With a delinquency three months ago and no collection amount the
    record is not [never_delinq] and [is_clean] is true; with no delinquency
    and a collection amount of 2 the amount is not zero and [is_clean] is
    true as well. *)
Example is_clean_precedence :
  (r ← PaymentHistoryCreditRecordSchema.load delinquent_payment_history;
   nd ← PaymentHistoryCreditRecord.never_delinq r;
   amt ← getitem (PaymentHistoryCreditRecord.data r) "tot_coll_amt";
   clean ← PaymentHistoryCreditRecord.is_clean r;
   Ok (nd, amt, clean)) = Ok (false, NInt 0, true) /\
  (r ← PaymentHistoryCreditRecordSchema.load collections_payment_history;
   nd ← PaymentHistoryCreditRecord.never_delinq r;
   amt ← getitem (PaymentHistoryCreditRecord.data r) "tot_coll_amt";
   clean ← PaymentHistoryCreditRecord.is_clean r;
   Ok (nd, amt, clean)) = Ok (true, NInt 2, true).
Proof. split; vm_compute; reflexivity. Qed.

(** C2, at two validated inputs. The claim makes [has_recent_delinq] and
    [has_recent_pr] true exactly for counters of at most 12; the source
    compares with [>= 12]. Each line loads a raw mapping and reads the two
    counters and the two properties off the record. With both fields omitted
    (the sentinels 226 and 124) both properties are true; with both counters
    at 3 both are false. *)
Example has_recent_direction :
  (r ← PaymentHistoryCreditRecordSchema.load minimal_payment_history;
   d ← getitem (PaymentHistoryCreditRecord.data r) "mths_since_last_delinq";
   p ← getitem (PaymentHistoryCreditRecord.data r) "mths_since_last_record";
   recent_delinq ← PaymentHistoryCreditRecord.has_recent_delinq r;
   recent_pr ← PaymentHistoryCreditRecord.has_recent_pr r;
   Ok (d, p, recent_delinq, recent_pr))
    = Ok (NInt 226, NInt 124, true, true) /\
  (r ← PaymentHistoryCreditRecordSchema.load delinquent_payment_history;
   d ← getitem (PaymentHistoryCreditRecord.data r) "mths_since_last_delinq";
   p ← getitem (PaymentHistoryCreditRecord.data r) "mths_since_last_record";
   recent_delinq ← PaymentHistoryCreditRecord.has_recent_delinq r;
   recent_pr ← PaymentHistoryCreditRecord.has_recent_pr r;
   Ok (d, p, recent_delinq, recent_pr))
    = Ok (NInt 3, NInt 3, false, false).
Proof. split; vm_compute; reflexivity. Qed.

(** C6. For a record the Payment History validator produced,
    [never_delinq] is true if and only if the stored
    [mths_since_last_delinq] is at least 226; a supplied integer between 0
    and 225 makes it false; when the field is omitted the stored value is the
    default 226 and [never_delinq] is true. *)
Theorem never_delinq_threshold (raw : gmap string num)
    (r : PaymentHistoryCreditRecord.t) :
  PaymentHistoryCreditRecordSchema.load raw = Ok r ->
  (exists z b,
     PaymentHistoryCreditRecord.data r !! "mths_since_last_delinq"
       = Some (NInt z) /\
     PaymentHistoryCreditRecord.never_delinq r = Ok b /\
     (b = true <-> 226 <= z)) /\
  (forall z, raw !! "mths_since_last_delinq" = Some (NInt z) ->
     0 <= z <= 225 ->
     PaymentHistoryCreditRecord.never_delinq r = Ok false) /\
  (raw !! "mths_since_last_delinq" = None ->
     PaymentHistoryCreditRecord.data r !! "mths_since_last_delinq"
       = Some (NInt 226) /\
     PaymentHistoryCreditRecord.never_delinq r = Ok true).
Proof.
  intros Hload.
  destruct (loaded_mths_since_last_delinq raw r Hload) as (z & Hz & Hr & Hraw).
  split; [|split].
  - exists z, (226 <=? z). split; [done|]. split; [by apply never_delinq_eval|].
    apply Z.leb_le.
  - intros z' Hz' Hrange. rewrite Hz' in Hraw. simpl in Hraw. subst z'.
    rewrite (never_delinq_eval r z Hz). f_equal. apply Z.leb_gt. lia.
  - intros Hnone. rewrite Hnone in Hraw. subst z. split; [done|].
    by rewrite (never_delinq_eval r 226 Hz).
Qed.

Lemma never_delinq_threshold_witness :
  (exists r,
     PaymentHistoryCreditRecordSchema.load delinquent_payment_history = Ok r /\
     PaymentHistoryCreditRecord.never_delinq r = Ok false) /\
  (exists r,
     PaymentHistoryCreditRecordSchema.load minimal_payment_history = Ok r /\
     PaymentHistoryCreditRecord.never_delinq r = Ok true).
Proof.
  split.
  - destruct (is_Ok_true
      (PaymentHistoryCreditRecordSchema.load delinquent_payment_history))
      as [r Hr]; [vm_compute; reflexivity|].
    exists r. split; [exact Hr|].
    apply (proj1 (proj2 (never_delinq_threshold _ r Hr)) 3);
      [vm_compute; reflexivity | lia].
  - destruct (is_Ok_true
      (PaymentHistoryCreditRecordSchema.load minimal_payment_history))
      as [r Hr]; [vm_compute; reflexivity|].
    exists r. split; [exact Hr|].
    apply (proj2 (proj2 (never_delinq_threshold _ r Hr))).
    vm_compute; reflexivity.
Defined.

(** ** The derivation step *)

Lemma constructed_lookup (columns : list string) (d : gmap string num)
    (k : string) :
  constructed columns d -> k ∈ columns -> is_Some (d !! k).
Proof.
  intros [kwargs H] Hk.
  rewrite (init_data_lookup _ _ _ _ k H), decide_True by done.
  by eapply init_data_inv.
Qed.

Lemma constructed_dom (columns : list string) (d : gmap string num)
    (k : string) :
  constructed columns d -> is_Some (d !! k) -> k ∈ columns.
Proof.
  intros [kwargs H]. rewrite (init_data_lookup _ _ _ _ k H).
  case_decide; [done|]. rewrite lookup_empty. by intros [? [=]].
Qed.

Lemma init_constructed (c : category) (kwargs d : gmap string num) :
  init_data (columns_of c) kwargs ∅ = Ok d -> constructed (columns_of c) d.
Proof. intros H. by exists kwargs. Qed.

(** On a valid composite [process] runs to its end and leaves exactly this
    composite. *)
Lemma process_eval (cr : CreditRecord.t) :
  valid cr ->
  exists v w,
    HistoryLengthCreditRecord.data (CreditRecord.history_length cr)
      !! "mo_sin_old_rev_tl_op" = Some v /\
    AmountsOwedCreditRecord.data (CreditRecord.amounts_owed cr)
      !! "revol_bal" = Some w /\
    CreditRecord.process cr =
      (CreditRecord.Build
         (CreditRecord.payment_history cr)
         (CreditRecord.amounts_owed cr)
         (CreditRecord.history_length cr)
         (NewCreditCreditRecord.Build
            (NewCreditCreditRecord.data (CreditRecord.new_credit cr))
            (Some (num_leb v (NInt 12))))
         (CreditMixCreditRecord.Build
            (CreditMixCreditRecord.data (CreditRecord.credit_mix cr))
            (Some (num_ltb w (NInt 1)))),
       Ok tt).
Proof.
  intros (_ & Hao & Hhl & _ & _).
  destruct (constructed_lookup _ _ "mo_sin_old_rev_tl_op" Hhl) as [v Hv];
    [column|].
  destruct (constructed_lookup _ _ "revol_bal" Hao) as [w Hw]; [column|].
  exists v, w. split; [done|]. split; [done|].
  unfold CreditRecord.process, getitem. rewrite Hv.
  cbn [CreditRecord.set_new_credit CreditRecord.amounts_owed]. by rewrite Hw.
Qed.

Lemma process_valid (cr cr' : CreditRecord.t) (o : result unit) :
  valid cr -> CreditRecord.process cr = (cr', o) -> valid cr'.
Proof.
  intros Hv. destruct (process_eval cr Hv) as (v & w & _ & _ & ->).
  intros [= <- _]. exact Hv.
Qed.

(** C5. On every composite of five valid category records [process] ends
    normally, and afterwards [has_new_revolver] of New Credit is
    [mo_sin_old_rev_tl_op <= 12] read from History Length and [no_revol_util]
    of Credit Mix is [revol_bal < 1] read from Amounts Owed. *)
Theorem process_derives (cr : CreditRecord.t) :
  valid cr ->
  exists v w cr',
    HistoryLengthCreditRecord.data (CreditRecord.history_length cr)
      !! "mo_sin_old_rev_tl_op" = Some v /\
    AmountsOwedCreditRecord.data (CreditRecord.amounts_owed cr)
      !! "revol_bal" = Some w /\
    CreditRecord.process cr = (cr', Ok tt) /\
    NewCreditCreditRecord.has_new_revolver (CreditRecord.new_credit cr')
      = Some (num_leb v (NInt 12)) /\
    CreditMixCreditRecord.no_revol_util (CreditRecord.credit_mix cr')
      = Some (num_ltb w (NInt 1)) /\
    (num_leb v (NInt 12) = true <-> (num_Q v <= 12)%Q) /\
    (num_ltb w (NInt 1) = true <-> (num_Q w < 1)%Q).
Proof.
  intros Hv. destruct (process_eval cr Hv) as (v & w & Hhl & Hao & Hp).
  exists v, w. eexists. split; [done|]. split; [done|]. split; [exact Hp|].
  split; [done|]. split; [done|]. split.
  - apply num_leb_spec.
  - apply num_ltb_spec.
Qed.

(** C10. On a valid composite [process] changes nothing but the two derived
    flags: the three records without such a flag are the same, the raw
    fields of New Credit and of Credit Mix are the same; and a second run
    leaves the composite as the first run left it. *)
Theorem process_frame_idempotent (cr : CreditRecord.t) :
  valid cr ->
  exists cr',
    CreditRecord.process cr = (cr', Ok tt) /\
    CreditRecord.payment_history cr' = CreditRecord.payment_history cr /\
    CreditRecord.amounts_owed cr' = CreditRecord.amounts_owed cr /\
    CreditRecord.history_length cr' = CreditRecord.history_length cr /\
    NewCreditCreditRecord.data (CreditRecord.new_credit cr')
      = NewCreditCreditRecord.data (CreditRecord.new_credit cr) /\
    CreditMixCreditRecord.data (CreditRecord.credit_mix cr')
      = CreditMixCreditRecord.data (CreditRecord.credit_mix cr) /\
    CreditRecord.process cr' = (cr', Ok tt).
Proof.
  intros Hv. destruct (process_eval cr Hv) as (v & w & Hhl & Hao & Hp).
  eexists. split; [exact Hp|]. repeat (split; [reflexivity|]).
  unfold CreditRecord.process, getitem.
  cbn [CreditRecord.history_length CreditRecord.set_new_credit
       CreditRecord.amounts_owed]. rewrite Hhl.
  cbn [CreditRecord.amounts_owed]. by rewrite Hao.
Qed.

(** ** Vectors *)



Lemma append_columns_constructed (columns : list string) (d : gmap string num) :
  constructed columns d ->
  exists raw, append_columns columns d = Ok raw /\
    length raw = length columns /\
    Forall2 (fun k v => d !! k = Some v) columns raw.
Proof.
  intros Hc. destruct (append_columns_total columns d) as (raw & Hraw & Hlen).
  { intros k Hk. by eapply constructed_lookup. }
  exists raw. split; [done|]. split; [done|]. by apply append_columns_Ok.
Qed.

(** ** Loading the composite *)

Lemma Nested_deserialize_inl {R : Type} (load : gmap string num -> result R)
    (raw : option (gmap string num)) (r : R) :
  FicoCreditRecordSchema.Nested_deserialize load raw = Ok (inl r) ->
  exists d, raw = Some d /\ load d = Ok r.
Proof.
  unfold FicoCreditRecordSchema.Nested_deserialize.
  destruct raw as [d|]; [|done].
  destruct (load d) as [r'|[]] eqn:Hl; try done.
  intros [= <-]. by exists d.
Qed.

(** A composite that loads is made of the five records its blocks load. *)
Lemma FicoCreditRecordSchema_load_Ok (req_body : gmap string (gmap string num))
    (cr : CreditRecord.t) :
  FicoCreditRecordSchema.load req_body = Ok cr ->
  exists d1 d2 d3 d4 d5,
    req_body !! "paymentHistory" = Some d1 /\
    req_body !! "amountsOwed" = Some d2 /\
    req_body !! "historyLength" = Some d3 /\
    req_body !! "newCredit" = Some d4 /\
    req_body !! "creditMix" = Some d5 /\
    PaymentHistoryCreditRecordSchema.load d1
      = Ok (CreditRecord.payment_history cr) /\
    AmountsOwedCreditRecordSchema.load d2 = Ok (CreditRecord.amounts_owed cr) /\
    HistoryLengthRecordSchema.load d3 = Ok (CreditRecord.history_length cr) /\
    NewCreditRecordSchema.load d4 = Ok (CreditRecord.new_credit cr) /\
    CreditMixRecordSchema.load d5 = Ok (CreditRecord.credit_mix cr).
Proof.
  unfold FicoCreditRecordSchema.load.
  destruct (FicoCreditRecordSchema.Nested_deserialize
              PaymentHistoryCreditRecordSchema.load _) as [o1|] eqn:H1;
    [|done].
  destruct (FicoCreditRecordSchema.Nested_deserialize
              AmountsOwedCreditRecordSchema.load _) as [o2|] eqn:H2;
    [|done].
  destruct (FicoCreditRecordSchema.Nested_deserialize
              HistoryLengthRecordSchema.load _) as [o3|] eqn:H3;
    [|done].
  destruct (FicoCreditRecordSchema.Nested_deserialize
              NewCreditRecordSchema.load _) as [o4|] eqn:H4;
    [|done].
  destruct (FicoCreditRecordSchema.Nested_deserialize
              CreditMixRecordSchema.load _) as [o5|] eqn:H5;
    [|done].
  cbn [mbind result_bind].
  destruct o1 as [r1|], o2 as [r2|], o3 as [r3|], o4 as [r4|], o5 as [r5|];
    try done.
  case_decide; [|done].
  unfold FicoCreditRecordSchema.make_credit_record. intros [= <-].
  apply Nested_deserialize_inl in H1 as (d1 & ? & ?).
  apply Nested_deserialize_inl in H2 as (d2 & ? & ?).
  apply Nested_deserialize_inl in H3 as (d3 & ? & ?).
  apply Nested_deserialize_inl in H4 as (d4 & ? & ?).
  apply Nested_deserialize_inl in H5 as (d5 & ? & ?).
  by exists d1, d2, d3, d4, d5.
Qed.

Lemma FicoCreditRecordSchema_load_valid
    (req_body : gmap string (gmap string num)) (cr : CreditRecord.t) :
  FicoCreditRecordSchema.load req_body = Ok cr -> valid cr.
Proof.
  intros (d1 & d2 & d3 & d4 & d5 & _ & _ & _ & _ & _ & H1 & H2 & H3 & H4 & H5)
    %FicoCreditRecordSchema_load_Ok.
  apply PaymentHistory_load in H1. apply AmountsOwed_load in H2.
  apply HistoryLength_load in H3. apply NewCredit_load in H4 as [H4 _].
  apply CreditMix_load in H5 as [H5 _].
  repeat split; by eapply load_data_constructed.
Qed.

Lemma process_derives_witness :
  exists cr cr',
    FicoCreditRecordSchema.load minimal_body = Ok cr /\
    CreditRecord.process cr = (cr', Ok tt) /\
    NewCreditCreditRecord.has_new_revolver (CreditRecord.new_credit cr')
      = Some false /\
    CreditMixCreditRecord.no_revol_util (CreditRecord.credit_mix cr')
      = Some true.
Proof.
  destruct (is_Ok_true (FicoCreditRecordSchema.load minimal_body))
    as [cr Hcr]; [vm_compute; reflexivity|].
  destruct (process_derives cr (FicoCreditRecordSchema_load_valid _ _ Hcr))
    as (v & w & cr' & Hv & Hw & Hp & Hn & Hu & _).
  exists cr, cr'. split; [exact Hcr|]. split; [exact Hp|].
  assert ((cr ← FicoCreditRecordSchema.load minimal_body;
           v ← getitem (HistoryLengthCreditRecord.data
                          (CreditRecord.history_length cr))
                       "mo_sin_old_rev_tl_op";
           w ← getitem (AmountsOwedCreditRecord.data
                          (CreditRecord.amounts_owed cr)) "revol_bal";
           Ok (num_leb v (NInt 12), num_ltb w (NInt 1)))
          = Ok (false, true)) as Hrun by (vm_compute; reflexivity).
  rewrite Hcr in Hrun. cbn [mbind result_bind] in Hrun.
  unfold getitem in Hrun. rewrite Hv, Hw in Hrun.
  cbn [mbind result_bind] in Hrun. injection Hrun as Hb1 Hb2.
  rewrite Hn, Hu, Hb1, Hb2. by split.
Defined.

Lemma process_frame_idempotent_witness :
  exists cr cr',
    FicoCreditRecordSchema.load minimal_body = Ok cr /\
    CreditRecord.process cr = (cr', Ok tt) /\
    CreditRecord.process cr' = (cr', Ok tt).
Proof.
  destruct (is_Ok_true (FicoCreditRecordSchema.load minimal_body))
    as [cr Hcr]; [vm_compute; reflexivity|].
  destruct (process_frame_idempotent cr
              (FicoCreditRecordSchema_load_valid _ _ Hcr))
    as (cr' & Hp & _ & _ & _ & _ & _ & Hq).
  exists cr, cr'. by repeat split.
Defined.

(** ** The vector of each record *)







(** * Further properties of the code *)

(** ** Construction *)

Lemma init_data_Raise (columns : list string) (kwargs d0 : gmap string num)
    (e : exn) :
  init_data columns kwargs d0 = Raise e ->
  e = AssertionError /\ exists k, k ∈ columns /\ kwargs !! k = None.
Proof.
  revert d0. induction columns as [|c columns IH]; intros d0; cbn [init_data].
  - done.
  - destruct (kwargs !! c) as [v|] eqn:Hc.
    + intros (-> & k & Hk & Hn)%IH. split; [done|]. exists k.
      split; [by apply list_elem_of_further | done].
    + intros [= <-]. split; [done|]. exists c.
      split; [apply list_elem_of_here | done].
Qed.

(** X1. The loop of the five [__init__] methods, whatever the keyword
    arguments: it either returns a dict that holds exactly the columns, each
    with the value the keyword arguments give it (any other keyword argument
    is dropped), or it fails with [AssertionError], and then some column has
    no value among the keyword arguments. *)
Theorem init_data_outcome (columns : list string) (kwargs : gmap string num) :
  match init_data columns kwargs ∅ with
  | Ok d =>
      (forall k, k ∈ columns -> is_Some (kwargs !! k)) /\
      (forall k, d !! k = if decide (k ∈ columns) then kwargs !! k else None)
  | Raise e =>
      e = AssertionError /\ exists k, k ∈ columns /\ kwargs !! k = None
  end.
Proof.
  destruct (init_data columns kwargs ∅) as [d|e] eqn:H.
  - split; [by eapply init_data_inv|].
    intros k. by rewrite (init_data_lookup _ _ _ _ k H), lookup_empty.
  - by eapply init_data_Raise.
Qed.

(** ** Payment History *)

(** X2. [never_delinq] implies [has_recent_delinq], and [never_record]
    implies [has_recent_pr], on every record: each pair compares the same
    counter with [>=], against the sentinel and against 12. *)
Theorem never_implies_has_recent (self : PaymentHistoryCreditRecord.t) :
  (PaymentHistoryCreditRecord.never_delinq self = Ok true ->
   PaymentHistoryCreditRecord.has_recent_delinq self = Ok true) /\
  (PaymentHistoryCreditRecord.never_record self = Ok true ->
   PaymentHistoryCreditRecord.has_recent_pr self = Ok true).
Proof.
  unfold PaymentHistoryCreditRecord.never_delinq,
    PaymentHistoryCreditRecord.has_recent_delinq,
    PaymentHistoryCreditRecord.never_record,
    PaymentHistoryCreditRecord.has_recent_pr, getitem.
  split.
  - destruct (_ !! "mths_since_last_delinq") as [v|]; [|done].
    cbn [mbind result_bind]. intros [= H]. f_equal.
    apply num_leb_spec in H. apply num_leb_spec.
    eapply Qle_trans; [|exact H]. by apply Qle_bool_iff.
  - destruct (_ !! "mths_since_last_record") as [v|]; [|done].
    cbn [mbind result_bind]. intros [= H]. f_equal.
    apply num_leb_spec in H. apply num_leb_spec.
    eapply Qle_trans; [|exact H]. by apply Qle_bool_iff.
Qed.

Lemma never_implies_has_recent_witness :
  exists r,
    PaymentHistoryCreditRecordSchema.load minimal_payment_history = Ok r /\
    PaymentHistoryCreditRecord.has_recent_delinq r = Ok true /\
    PaymentHistoryCreditRecord.has_recent_pr r = Ok true.
Proof.
  destruct (is_Ok_true
    (PaymentHistoryCreditRecordSchema.load minimal_payment_history))
    as [r Hr]; [vm_compute; reflexivity|].
  exists r. split; [exact Hr|].
  assert ((r ← PaymentHistoryCreditRecordSchema.load minimal_payment_history;
           a ← PaymentHistoryCreditRecord.never_delinq r;
           b ← PaymentHistoryCreditRecord.never_record r;
           Ok (a, b)) = Ok (true, true)) as Hrun by (vm_compute; reflexivity).
  rewrite Hr in Hrun. cbn [mbind result_bind] in Hrun.
  destruct (PaymentHistoryCreditRecord.never_delinq r) as [a|] eqn:Ha;
    [|done].
  destruct (PaymentHistoryCreditRecord.never_record r) as [b|] eqn:Hb;
    [|done].
  cbn [mbind result_bind] in Hrun. injection Hrun as -> ->.
  split.
  - apply (proj1 (never_implies_has_recent r)). exact Ha.
  - apply (proj2 (never_implies_has_recent r)). exact Hb.
Defined.

Lemma loaded_tot_coll_amt (raw : gmap string num)
    (r : PaymentHistoryCreditRecord.t) :
  PaymentHistoryCreditRecordSchema.load raw = Ok r ->
  exists amt,
    PaymentHistoryCreditRecord.data r !! "tot_coll_amt" = Some (NInt amt) /\
    match raw !! "tot_coll_amt" with
    | Some value => amt = to_int value
    | None => amt = 0
    end.
Proof.
  intros H%PaymentHistory_load.
  set (f := fields_Int "tot_coll_amt" false (Some (NInt 0))
              (Range_min (NInt 0))).
  assert (f ∈ schema_of PaymentHistory) as Hf by (subst f; declared).
  assert (name f ∈ columns_of PaymentHistory) as Hk by (subst f; column).
  pose proof (load_data_lookup _ _ _ f H Hf Hk) as Hl.
  change (name f) with "tot_coll_amt" in Hl.
  destruct (raw !! "tot_coll_amt") as [value|] eqn:Hraw.
  - by exists (to_int value).
  - by exists 0.
Qed.

(** X3. What [is_clean] is on a record the Payment History validator
    produced: true when the delinquency counter is below 226, and otherwise
    true exactly when [tot_coll_amt] is even. *)
Theorem is_clean_loaded (raw : gmap string num)
    (r : PaymentHistoryCreditRecord.t) :
  PaymentHistoryCreditRecordSchema.load raw = Ok r ->
  exists z amt,
    PaymentHistoryCreditRecord.data r !! "mths_since_last_delinq"
      = Some (NInt z) /\
    PaymentHistoryCreditRecord.data r !! "tot_coll_amt" = Some (NInt amt) /\
    PaymentHistoryCreditRecord.is_clean r = Ok ((z <? 226) || Z.even amt).
Proof.
  intros Hload.
  destruct (loaded_mths_since_last_delinq raw r Hload) as (z & Hz & _ & _).
  destruct (loaded_tot_coll_amt raw r Hload) as (amt & Hamt & _).
  exists z, amt. split; [done|]. split; [done|].
  rewrite (is_clean_eval r z amt Hz Hamt). by rewrite Z.ltb_antisym.
Qed.

Lemma is_clean_loaded_witness :
  exists r z amt,
    PaymentHistoryCreditRecordSchema.load collections_payment_history = Ok r /\
    PaymentHistoryCreditRecord.is_clean r = Ok ((z <? 226) || Z.even amt).
Proof.
  destruct (is_Ok_true
    (PaymentHistoryCreditRecordSchema.load collections_payment_history))
    as [r Hr]; [vm_compute; reflexivity|].
  destruct (is_clean_loaded _ r Hr) as (z & amt & _ & _ & Hc).
  exists r, z, amt. split; [exact Hr | exact Hc].
Defined.

(** X4. On a record built directly with a float [tot_coll_amt] (the
    constructor takes any value), [is_clean] fails with [TypeError], and so
    does [numpy]: [&] has no meaning between a bool and a float. *)
Theorem is_clean_float (d : gmap string num) (q : Q) :
  constructed (columns_of PaymentHistory) d ->
  d !! "tot_coll_amt" = Some (NFloat q) ->
  PaymentHistoryCreditRecord.is_clean (PaymentHistoryCreditRecord.Build d)
    = Raise TypeError /\
  PaymentHistoryCreditRecord.numpy (PaymentHistoryCreditRecord.Build d)
    = Raise TypeError.
Proof.
  intros Hc Hamt.
  destruct (append_columns_constructed _ _ Hc) as (raw & Hr & _ & _).
  destruct (constructed_lookup _ _ "mths_since_last_major_derog" Hc)
    as [v1 Hv1]; [column|].
  destruct (constructed_lookup _ _ "mths_since_last_record" Hc)
    as [v2 Hv2]; [column|].
  destruct (constructed_lookup _ _ "mths_since_last_delinq" Hc)
    as [v3 Hv3]; [column|].
  destruct (constructed_lookup _ _ "mths_since_recent_revol_delinq" Hc)
    as [v4 Hv4]; [column|].
  destruct (constructed_lookup _ _ "mths_since_recent_bc_dlq" Hc)
    as [v5 Hv5]; [column|].
  unfold PaymentHistoryCreditRecord.numpy,
    PaymentHistoryCreditRecord.never_major_derog,
    PaymentHistoryCreditRecord.never_record,
    PaymentHistoryCreditRecord.is_clean,
    PaymentHistoryCreditRecord.never_delinq,
    PaymentHistoryCreditRecord.never_recent_revol_delinq,
    PaymentHistoryCreditRecord.never_recent_bc_delinq, getitem.
  cbn [columns_of PaymentHistoryCreditRecord.data] in *.
  rewrite Hr, Hv1, Hv2, Hv3, Hv4, Hv5, Hamt. by cbn [mbind result_bind bool_and].
Qed.

Lemma is_clean_float_witness :
  exists d,
    init_data (columns_of PaymentHistory) float_collections_kwargs ∅ = Ok d /\
    PaymentHistoryCreditRecord.is_clean (PaymentHistoryCreditRecord.Build d)
      = Raise TypeError /\
    PaymentHistoryCreditRecord.numpy (PaymentHistoryCreditRecord.Build d)
      = Raise TypeError.
Proof.
  destruct (is_Ok_true
    (init_data (columns_of PaymentHistory) float_collections_kwargs ∅))
    as [d Hd]; [vm_compute; reflexivity|].
  exists d. split; [exact Hd|].
  apply (is_clean_float d 5).
  - by exists float_collections_kwargs.
  - rewrite (init_data_lookup _ _ _ _ "tot_coll_amt" Hd).
    vm_compute. reflexivity.
Defined.

(** Behind every load that returns there is a call of [__init__]. *)
Lemma PaymentHistory_load_init (raw : gmap string num)
    (r : PaymentHistoryCreditRecord.t) :
  PaymentHistoryCreditRecordSchema.load raw = Ok r ->
  exists kwargs, PaymentHistoryCreditRecord.__init__ kwargs = Ok r.
Proof.
  unfold PaymentHistoryCreditRecordSchema.load, Schema_load.
  destruct (Schema_deserialize _ raw) as [ret errors].
  case_decide; [|done]. intros Hi. by exists ret.
Qed.





(** ** History Length and Credit Mix *)

Lemma in_range_Int_min (lo z : Z) :
  in_range (validate_Range (Some (NInt lo)) None) (NInt z) -> lo <= z.
Proof.
  intros [H1 _]. specialize (H1 _ eq_refl). simpl in H1.
  by rewrite <- Zle_Qle in H1.
Qed.

(** X5. On a record the History Length validator produced, the supplied
    [age_earliest_cr_line] (a required field) is stored as an integer between
    0 and 890, and [is_mature] is true exactly when it is at least 36. *)
Theorem is_mature_loaded (raw : gmap string num)
    (r : HistoryLengthCreditRecord.t) :
  HistoryLengthRecordSchema.load raw = Ok r ->
  exists value,
    raw !! "age_earliest_cr_line" = Some value /\
    HistoryLengthCreditRecord.data r !! "age_earliest_cr_line"
      = Some (NInt (to_int value)) /\
    0 <= to_int value <= 890 /\
    HistoryLengthCreditRecord.is_mature r = Ok (36 <=? to_int value).
Proof.
  intros H%HistoryLength_load.
  set (f := fields_Int "age_earliest_cr_line" true None
              (Range_min_max (NInt 0) (NInt 890))).
  assert (f ∈ schema_of HistoryLength) as Hf by (subst f; declared).
  assert (name f ∈ columns_of HistoryLength) as Hk by (subst f; column).
  pose proof (load_data_lookup _ _ _ f H Hf Hk) as Hl.
  pose proof (proj2 (load_data_dom _ _ _ (name f) H) Hk) as [v Hv].
  change (name f) with "age_earliest_cr_line" in Hl, Hv.
  destruct (raw !! "age_earliest_cr_line") as [value|] eqn:Hraw.
  - exists value. split; [done|]. split; [done|]. split.
    + apply in_range_Int.
      by apply (load_data_in_range _ _ _ f value _ H Hf Hraw).
    + unfold HistoryLengthCreditRecord.is_mature, getitem. rewrite Hl.
      cbn [mbind result_bind Number_deserialize ty f fields_Int].
      by rewrite num_geb_NInt.
  - cbn [missing f fields_Int] in Hl. congruence.
Qed.

Lemma is_mature_loaded_witness :
  exists r,
    HistoryLengthRecordSchema.load minimal_history_length = Ok r /\
    HistoryLengthCreditRecord.is_mature r = Ok true.
Proof.
  destruct (is_Ok_true (HistoryLengthRecordSchema.load minimal_history_length))
    as [r Hr]; [vm_compute; reflexivity|].
  exists r. split; [exact Hr|].
  destruct (is_mature_loaded _ r Hr) as (value & Hv & _ & _ & Hm).
  assert (minimal_history_length !! "age_earliest_cr_line" = Some (NInt 36))
    as Hraw by (vm_compute; reflexivity).
  rewrite Hraw in Hv. injection Hv as <-. exact Hm.
Defined.

(** X6. On a record the Credit Mix validator produced, [is_thick] is true
    exactly when the supplied [num_tradelines], as an integer, is at least 4;
    it is false when the field is omitted (the default is 0). *)
Theorem is_thick_loaded (raw : gmap string num) (r : CreditMixCreditRecord.t) :
  CreditMixRecordSchema.load raw = Ok r ->
  CreditMixCreditRecord.is_thick r =
    Ok match raw !! "num_tradelines" with
       | Some value => 4 <=? to_int value
       | None => false
       end.
Proof.
  intros [H _]%CreditMix_load.
  set (f := fields_Int "num_tradelines" false (Some (NInt 0)) None).
  assert (f ∈ schema_of CreditMix) as Hf by (subst f; declared).
  assert (name f ∈ columns_of CreditMix) as Hk by (subst f; column).
  pose proof (load_data_lookup _ _ _ f H Hf Hk) as Hl.
  change (name f) with "num_tradelines" in Hl.
  unfold CreditMixCreditRecord.is_thick, getitem. rewrite Hl.
  destruct (raw !! "num_tradelines") as [value|];
    cbn [mbind result_bind Number_deserialize ty missing f fields_Int];
    by rewrite num_geb_NInt.
Qed.

Lemma is_thick_loaded_witness :
  exists r,
    CreditMixRecordSchema.load minimal_credit_mix = Ok r /\
    CreditMixCreditRecord.is_thick r = Ok false.
Proof.
  destruct (is_Ok_true (CreditMixRecordSchema.load minimal_credit_mix))
    as [r Hr]; [vm_compute; reflexivity|].
  exists r. split; [exact Hr|].
  rewrite (is_thick_loaded _ r Hr).
  assert (minimal_credit_mix !! "num_tradelines" = None) as ->
    by (vm_compute; reflexivity).
  reflexivity.
Defined.

(** ** The five vectors *)












(** ** The pipeline *)

Lemma load_credit_record_Ok (req_body : gmap string (gmap string num))
    (cr' : CreditRecord.t) :
  load_credit_record req_body = Ok cr' ->
  exists cr,
    FicoCreditRecordSchema.load req_body = Ok cr /\
    CreditRecord.process cr = (cr', Ok tt).
Proof.
  unfold load_credit_record.
  destruct (FicoCreditRecordSchema.load req_body) as [cr|] eqn:Hl; [|done].
  cbn [mbind result_bind].
  destruct (CreditRecord.process cr) as [cr1 [[]|]] eqn:Hp; [|done].
  cbn [mbind result_bind]. intros [= <-]. by exists cr.
Qed.

(** ** The category schemas *)

Lemma load_data_errors (c : category) (raw : gmap string num) (e : exn) :
  load_data c raw = Raise e ->
  e = ValidationError (Messages <$> (Schema_deserialize (schema_of c) raw).2) /\
  (Schema_deserialize (schema_of c) raw).2 <> ∅.
Proof.
  destruct (decide ((Schema_deserialize (schema_of c) raw).2 = ∅)) as [He|He].
  - apply (Schema_errors_empty _ _ (schema_NoDup c)) in He as [Hoff Hunk].
    destruct (load_data_total c raw Hoff Hunk) as [d Hd]. congruence.
  - rewrite load_data_eq. unfold Schema_load.
    destruct (Schema_deserialize (schema_of c) raw) as [ret errors].
    cbn [snd] in *. rewrite decide_False by done. by intros [= <-].
Qed.




(** X15. When several fields of a raw mapping offend, the validator of the
    category raises one [ValidationError] whose messages have a non-empty
    entry under the name of every offending field, not only the first. *)
Theorem load_data_reports_all (c : category) (raw : gmap string num) :
  (exists f, f ∈ schema_of c /\ offending f raw) ->
  exists msgs,
    load_data c raw = Raise (ValidationError msgs) /\
    forall g, g ∈ schema_of c -> offending g raw ->
      exists l, msgs !! name g = Some (Messages l) /\ l <> [].
Proof.
  intros H. rewrite load_data_eq.
  apply Schema_load_Raise; [apply schema_NoDup | exact H].
Qed.

Lemma faulty_open_acc :
  offending (fields_Int "open_acc" true None (Range_min (NInt 0)))
    faulty_payment_history.
Proof.
  right. exists (NInt (-1)), (validate_Range (Some (NInt 0)) None).
  split; [vm_compute; reflexivity|]. split; [reflexivity|].
  intros H. apply (in_range_Int_min 0 (-1)) in H. lia.
Qed.

Lemma faulty_num_sats :
  offending (fields_Int "num_sats" true None (Range_min (NInt 0)))
    faulty_payment_history.
Proof. left. split; [reflexivity | vm_compute; reflexivity]. Qed.

Lemma load_data_reports_all_witness :
  exists msgs l1 l2,
    load_data PaymentHistory faulty_payment_history
      = Raise (ValidationError msgs) /\
    msgs !! "open_acc" = Some (Messages l1) /\ l1 <> [] /\
    msgs !! "num_sats" = Some (Messages l2) /\ l2 <> [].
Proof.
  destruct (load_data_reports_all PaymentHistory faulty_payment_history)
    as (msgs & Hl & Hall).
  { eexists. split; [|exact faulty_open_acc]. declared. }
  destruct (Hall (fields_Int "open_acc" true None (Range_min (NInt 0)))
              ltac:(declared) faulty_open_acc) as (l1 & H1 & Hn1).
  destruct (Hall (fields_Int "num_sats" true None (Range_min (NInt 0)))
              ltac:(declared) faulty_num_sats) as (l2 & H2 & Hn2).
  exists msgs, l1, l2. split; [exact Hl|]. split; [exact H1|].
  split; [exact Hn1|]. split; [exact H2 | exact Hn2].
Defined.



(** The [missing] value of every field lies in the range of the field. *)
Lemma missing_in_range (c : category) (f : field) (d : num) (r : Range) :
  f ∈ schema_of c -> missing f = Some d -> validate f = Some r ->
  in_range r d.
Proof.
  revert f d r.
  assert (Forall (fun f => forall d r, missing f = Some d ->
                   validate f = Some r -> in_range r d) (schema_of c)) as H.
  { destruct c;
      repeat (constructor;
              [intros d r Hd Hr; cbn in Hd, Hr; try discriminate;
               injection Hd as <-; injection Hr as <-;
               apply Range_call_None; vm_compute; reflexivity|]);
      constructor. }
  rewrite Forall_forall in H. intros f d r Hf. by apply H.
Qed.

(** X17. Every value of a loaded record that belongs to a field with a
    [Range] validator lies in that range, whether the input supplied it or
    the [missing] value filled it in. *)
Theorem load_data_in_bounds (c : category) (raw d : gmap string num)
    (f : field) (r : Range) :
  load_data c raw = Ok d ->
  f ∈ schema_of c -> name f ∈ columns_of c -> validate f = Some r ->
  exists x, d !! name f = Some x /\ in_range r x.
Proof.
  intros H Hf Hk Hr.
  pose proof (proj2 (load_data_dom c raw d (name f) H) Hk) as [x Hx].
  exists x. split; [done|].
  rewrite (load_data_lookup c raw d f H Hf Hk) in Hx.
  destruct (raw !! name f) as [value|] eqn:Hraw.
  - injection Hx as <-. by eapply load_data_in_range.
  - by eapply missing_in_range.
Qed.

Lemma load_data_in_bounds_witness :
  exists d x,
    load_data PaymentHistory minimal_payment_history = Ok d /\
    d !! "pct_tl_nvr_dlq" = Some x /\
    in_range (validate_Range (Some (NInt 0)) (Some (NInt 100))) x.
Proof.
  destruct (is_Ok_true (load_data PaymentHistory minimal_payment_history))
    as [d Hd]; [vm_compute; reflexivity|].
  destruct (load_data_in_bounds PaymentHistory minimal_payment_history d
              (fields_Int "pct_tl_nvr_dlq" true None
                 (Range_min_max (NInt 0) (NInt 100)))
              (validate_Range (Some (NInt 0)) (Some (NInt 100))) Hd)
    as (x & Hx & Hin); [declared | column | reflexivity |].
  exists d, x. split; [exact Hd|]. split; [exact Hx | exact Hin].
Defined.






Lemma CreditMix_fields (f : field) :
  f ∈ schema_of CreditMix ->
  validate f = None /\ (required f = true -> name f = "num_bc_sats").
Proof.
  revert f. apply Forall_forall. cbn [schema_of].
  unfold CreditMixRecordSchema.declared_fields.
  repeat (constructor; [split; [reflexivity|]; cbn; congruence|]).
  constructor.
Qed.

(** X18. The Credit Mix schema accepts a raw mapping exactly when
    [num_bc_sats] is present and every key is one of the nine columns: no
    field of it has a range, so any number passes, negative ones included. *)
Theorem CreditMix_load_iff (raw : gmap string num) :
  (exists d, load_data CreditMix raw = Ok d) <->
  is_Some (raw !! "num_bc_sats") /\
  (forall k, is_Some (raw !! k) -> k ∈ columns_of CreditMix).
Proof.
  split.
  - intros [d (_ & Hoff & Hunk)%load_data_Ok]. split; [|exact Hunk].
    destruct (raw !! "num_bc_sats") eqn:Hr; [done|]. exfalso.
    apply (Hoff (fields_Int "num_bc_sats" true None None)); [declared|].
    by left.
  - intros [Hsats Hunk]. apply load_data_total; [|exact Hunk].
    intros f Hf [[Hreq Hnone]|(value & r & _ & Hr & _)].
    + destruct (CreditMix_fields f Hf) as [_ Hname].
      rewrite (Hname Hreq) in Hnone. rewrite Hnone in Hsats.
      by destruct Hsats.
    + destruct (CreditMix_fields f Hf) as [Hv _]. congruence.
Qed.

Lemma schema_min_zero (c : category) (f : field) :
  c <> CreditMix -> f ∈ schema_of c ->
  exists r lo, validate f = Some r /\ min r = Some lo /\ num_Q lo = 0%Q.
Proof.
  intros Hc. revert f. apply Forall_forall.
  destruct c; try done; cbn [schema_of];
    unfold PaymentHistoryCreditRecordSchema.declared_fields,
      AmountsOwedCreditRecordSchema.declared_fields,
      HistoryLengthRecordSchema.declared_fields,
      NewCreditRecordSchema.declared_fields;
    repeat (constructor; [eexists _, _; repeat split; reflexivity|]);
    constructor.
Qed.

(** X19. In the four schemas other than Credit Mix every field has a range
    whose minimum is zero: a raw mapping that gives some field a value which
    is negative after conversion is refused, with a message under the name of
    that field. *)
Theorem negative_rejected (c : category) (raw : gmap string num) (f : field)
    (value : num) :
  c <> CreditMix -> f ∈ schema_of c -> raw !! name f = Some value ->
  (num_Q (Number_deserialize (ty f) value) < 0)%Q ->
  exists msgs l,
    load_data c raw = Raise (ValidationError msgs) /\
    msgs !! name f = Some (Messages l) /\ l <> [].
Proof.
  intros Hc Hf Hraw Hneg.
  destruct (schema_min_zero c f Hc Hf) as (r & lo & Hr & Hlo & Hz).
  assert (offending f raw) as Hoff.
  { right. exists value, r. split; [done|]. split; [done|].
    intros [Hmin _]. specialize (Hmin lo Hlo). rewrite Hz in Hmin.
    by apply Qle_not_lt in Hmin. }
  rewrite load_data_eq.
  destruct (Schema_load_Raise (schema_of c)
              (fun ret => init_data (columns_of c) ret ∅) raw
              (schema_NoDup c)) as (msgs & Hl & Hall); [by exists f|].
  destruct (Hall f Hf Hoff) as (l & Hm & Hne). by exists msgs, l.
Qed.

Lemma negative_rejected_witness :
  exists msgs l,
    load_data PaymentHistory faulty_payment_history
      = Raise (ValidationError msgs) /\
    msgs !! "open_acc" = Some (Messages l) /\ l <> [].
Proof.
  apply (negative_rejected PaymentHistory faulty_payment_history
           (fields_Int "open_acc" true None (Range_min (NInt 0))) (NInt (-1))).
  - discriminate.
  - declared.
  - vm_compute. reflexivity.
  - reflexivity.
Defined.





(** ** The composite schema and the handler *)

Lemma Nested_deserialize_spec {R : Type} (load : gmap string num -> result R)
    (proj : R -> gmap string num) (c : category)
    (req_body : gmap string (gmap string num)) :
  (forall d, load_data c d = r ← load d; Ok (proj r)) ->
  exists o,
    FicoCreditRecordSchema.Nested_deserialize load
      (req_body !! data_key_of c) = Ok o /\
    err_of o = block_error c req_body.
Proof.
  intros Hload. unfold FicoCreditRecordSchema.Nested_deserialize, block_error.
  destruct (req_body !! data_key_of c) as [d|]; [|by eexists].
  specialize (Hload d). destruct (load d) as [r|e].
  - cbn [mbind result_bind] in Hload. rewrite Hload. by eexists.
  - cbn [mbind result_bind] in Hload.
    destruct (load_data_errors c d e Hload) as [-> _].
    rewrite Hload. by eexists.
Qed.

Lemma store_error_lookup {R : Type} (key k : string) (o : R + messages)
    (errors : gmap string messages) :
  FicoCreditRecordSchema.store_error key o errors !! k =
    if decide (key = k)
    then match err_of o with Some m => Some m | None => errors !! k end
    else errors !! k.
Proof.
  unfold FicoCreditRecordSchema.store_error. destruct o as [r|m]; cbn [err_of].
  - by case_decide; subst.
  - case_decide as Hk; [subst; apply lookup_insert_eq|].
    by apply lookup_insert_ne.
Qed.

Lemma unknown_lookup (req_body : gmap string (gmap string num)) (k : string) :
  FicoCreditRecordSchema.unknown req_body !! k =
    if decide (k ∈ FicoCreditRecordSchema.data_keys) then None
    else (fun _ => Messages [Unknown]) <$> req_body !! k.
Proof.
  unfold FicoCreditRecordSchema.unknown. rewrite lookup_fmap.
  destruct (req_body !! k) as [d|] eqn:Hk.
  - case_decide as Hin.
    + rewrite (proj2 (map_lookup_filter_None _ _ _)); [done|]. right.
      intros d' _ Hn. by apply Hn.
    + by rewrite (proj2 (map_lookup_filter_Some _ _ _ _) (conj Hk Hin)).
  - rewrite (proj2 (map_lookup_filter_None _ _ _)); [|by left].
    by case_decide.
Qed.

Lemma data_key_of_in (c : category) :
  data_key_of c ∈ FicoCreditRecordSchema.data_keys.
Proof.
  destruct c; cbn [data_key_of]; unfold FicoCreditRecordSchema.data_keys;
    repeat first [apply list_elem_of_here | apply list_elem_of_further].
Qed.

(** The two ways a load of the composite schema ends: with a composite,
    when no block has anything to answer for and no key is unknown; or with a
    [ValidationError] whose messages hold, under the key of each block, what
    that block has to answer for, and [Unknown] under every other key of the
    body. *)
Lemma FicoCreditRecordSchema_load_cases
    (req_body : gmap string (gmap string num)) :
  (exists cr,
     FicoCreditRecordSchema.load req_body = Ok cr /\
     (forall c, block_error c req_body = None) /\
     (forall k, is_Some (req_body !! k) ->
                k ∈ FicoCreditRecordSchema.data_keys)) \/
  (exists errors,
     FicoCreditRecordSchema.load req_body = Raise (ValidationError errors) /\
     (forall c, errors !! data_key_of c = block_error c req_body) /\
     (forall k, k ∉ FicoCreditRecordSchema.data_keys ->
        errors !! k = (fun _ => Messages [Unknown]) <$> req_body !! k)).
Proof.
  destruct (Nested_deserialize_spec PaymentHistoryCreditRecordSchema.load
              PaymentHistoryCreditRecord.data PaymentHistory req_body)
    as (o1 & H1 & E1); [done|].
  destruct (Nested_deserialize_spec AmountsOwedCreditRecordSchema.load
              AmountsOwedCreditRecord.data AmountsOwed req_body)
    as (o2 & H2 & E2); [done|].
  destruct (Nested_deserialize_spec HistoryLengthRecordSchema.load
              HistoryLengthCreditRecord.data HistoryLength req_body)
    as (o3 & H3 & E3); [done|].
  destruct (Nested_deserialize_spec NewCreditRecordSchema.load
              NewCreditCreditRecord.data NewCredit req_body)
    as (o4 & H4 & E4); [done|].
  destruct (Nested_deserialize_spec CreditMixRecordSchema.load
              CreditMixCreditRecord.data CreditMix req_body)
    as (o5 & H5 & E5); [done|].
  cbn [data_key_of] in H1, H2, H3, H4, H5.
  unfold FicoCreditRecordSchema.load.
  rewrite H1. cbn [mbind result_bind]. rewrite H2. cbn [mbind result_bind].
  rewrite H3. cbn [mbind result_bind]. rewrite H4. cbn [mbind result_bind].
  rewrite H5. cbn [mbind result_bind].
  remember (FicoCreditRecordSchema.store_error "creditMix" o5
              (FicoCreditRecordSchema.store_error "newCredit" o4
                 (FicoCreditRecordSchema.store_error "historyLength" o3
                    (FicoCreditRecordSchema.store_error "amountsOwed" o2
                       (FicoCreditRecordSchema.store_error "paymentHistory"
                          o1 ∅))))
            ∪ FicoCreditRecordSchema.unknown req_body) as errors eqn:Herr.
  assert (forall c, errors !! data_key_of c = block_error c req_body) as HE.
  { intros c. rewrite Herr, lookup_union, unknown_lookup.
    rewrite decide_True by apply data_key_of_in. rewrite (right_id None _).
    rewrite !store_error_lookup, lookup_empty.
    destruct c; cbn [data_key_of]; repeat (case_decide; try done).
    - rewrite E1. by destruct (block_error PaymentHistory req_body).
    - rewrite E2. by destruct (block_error AmountsOwed req_body).
    - rewrite E3. by destruct (block_error HistoryLength req_body).
    - rewrite E4. by destruct (block_error NewCredit req_body).
    - rewrite E5. by destruct (block_error CreditMix req_body). }
  assert (forall k, k ∉ FicoCreditRecordSchema.data_keys ->
            errors !! k = (fun _ => Messages [Unknown]) <$> req_body !! k)
    as HU.
  { intros k Hk. rewrite Herr, lookup_union, unknown_lookup.
    rewrite decide_False by done.
    rewrite !store_error_lookup, lookup_empty.
    repeat (case_decide;
            [exfalso; apply Hk; subst k;
             unfold FicoCreditRecordSchema.data_keys;
             repeat first [apply list_elem_of_here
                          | apply list_elem_of_further]|]).
    by destruct (req_body !! k). }
  clear Herr.
  destruct o1 as [r1|], o2 as [r2|], o3 as [r3|], o4 as [r4|], o5 as [r5|];
    try (right; exists errors; split; [reflexivity | by split]).
  case_decide as Hempty.
  - left. eexists. split; [reflexivity|]. split.
    + intros c. by rewrite <- HE, Hempty, lookup_empty.
    + intros k [d Hk].
      destruct (decide (k ∈ FicoCreditRecordSchema.data_keys)) as [|Hn];
        [done|].
      specialize (HU k Hn). rewrite Hempty, lookup_empty, Hk in HU. done.
  - right. exists errors. split; [reflexivity | by split].
Qed.

(** X21. What a request body that the composite schema loads looks like:
    its keys are exactly the five data keys, each block loads with the schema
    of its category to the record the composite holds in that place, and the
    two derived flags of the composite are still unset. *)
Theorem composite_load_Ok (req_body : gmap string (gmap string num))
    (cr : CreditRecord.t) :
  FicoCreditRecordSchema.load req_body = Ok cr ->
  (forall k, is_Some (req_body !! k) <->
             k ∈ FicoCreditRecordSchema.data_keys) /\
  (exists d1 d2 d3 d4 d5,
     req_body !! "paymentHistory" = Some d1 /\
     req_body !! "amountsOwed" = Some d2 /\
     req_body !! "historyLength" = Some d3 /\
     req_body !! "newCredit" = Some d4 /\
     req_body !! "creditMix" = Some d5 /\
     PaymentHistoryCreditRecordSchema.load d1
       = Ok (CreditRecord.payment_history cr) /\
     AmountsOwedCreditRecordSchema.load d2
       = Ok (CreditRecord.amounts_owed cr) /\
     HistoryLengthRecordSchema.load d3
       = Ok (CreditRecord.history_length cr) /\
     NewCreditRecordSchema.load d4 = Ok (CreditRecord.new_credit cr) /\
     CreditMixRecordSchema.load d5 = Ok (CreditRecord.credit_mix cr)) /\
  NewCreditCreditRecord.has_new_revolver (CreditRecord.new_credit cr) = None /\
  CreditMixCreditRecord.no_revol_util (CreditRecord.credit_mix cr) = None.
Proof.
  intros Hload.
  destruct (FicoCreditRecordSchema_load_Ok _ _ Hload)
    as (d1 & d2 & d3 & d4 & d5 & K1 & K2 & K3 & K4 & K5 & L1 & L2 & L3 & L4
        & L5).
  split; [|split; [|split]].
  - intros k. split.
    + destruct (FicoCreditRecordSchema_load_cases req_body)
        as [(cr' & _ & _ & Hkeys)|(errors & Hr & _)]; [apply Hkeys|].
      congruence.
    + unfold FicoCreditRecordSchema.data_keys.
      rewrite !elem_of_cons, elem_of_nil.
      intros [->|[->|[->|[->|[->|[]]]]]]; by eexists.
  - by exists d1, d2, d3, d4, d5.
  - by apply NewCredit_load in L4 as [_ ?].
  - by apply CreditMix_load in L5 as [_ ?].
Qed.

Lemma composite_load_Ok_witness :
  exists cr,
    FicoCreditRecordSchema.load minimal_body = Ok cr /\
    NewCreditCreditRecord.has_new_revolver (CreditRecord.new_credit cr)
      = None /\
    CreditMixCreditRecord.no_revol_util (CreditRecord.credit_mix cr) = None.
Proof.
  destruct (is_Ok_true (FicoCreditRecordSchema.load minimal_body))
    as [cr Hcr]; [vm_compute; reflexivity|].
  destruct (composite_load_Ok minimal_body cr Hcr) as (_ & _ & Hn & Hu).
  exists cr. split; [exact Hcr|]. split; [exact Hn | exact Hu].
Defined.

(** X22. The composite schema refuses a request body that lacks the block
    of a category, with the message of a missing required field under the
    data key of that category, and a body that has a key other than the five
    data keys, with the message of an unknown field under that key. *)
Theorem composite_load_keys (req_body : gmap string (gmap string num)) :
  (forall c, req_body !! data_key_of c = None ->
     exists errors,
       FicoCreditRecordSchema.load req_body = Raise (ValidationError errors) /\
       errors !! data_key_of c = Some (Messages [Required])) /\
  (forall k, is_Some (req_body !! k) ->
     k ∉ FicoCreditRecordSchema.data_keys ->
     exists errors,
       FicoCreditRecordSchema.load req_body = Raise (ValidationError errors) /\
       errors !! k = Some (Messages [Unknown])).
Proof.
  split.
  - intros c Hc.
    assert (block_error c req_body = Some (Messages [Required])) as Hb.
    { unfold block_error. by rewrite Hc. }
    destruct (FicoCreditRecordSchema_load_cases req_body)
      as [(cr & _ & Hnone & _)|(errors & Hr & HE & _)].
    + rewrite Hnone in Hb. discriminate Hb.
    + exists errors. split; [exact Hr|]. by rewrite HE.
  - intros k [d Hk] Hn.
    destruct (FicoCreditRecordSchema_load_cases req_body)
      as [(cr & _ & _ & Hkeys)|(errors & Hr & _ & HU)].
    + exfalso. apply Hn, Hkeys. by eexists.
    + exists errors. split; [exact Hr|]. by rewrite (HU k Hn), Hk.
Qed.

Lemma composite_load_keys_witness :
  exists errors,
    FicoCreditRecordSchema.load (delete "creditMix" minimal_body)
      = Raise (ValidationError errors) /\
    errors !! "creditMix" = Some (Messages [Required]).
Proof.
  apply (proj1 (composite_load_keys (delete "creditMix" minimal_body))
           CreditMix).
  apply lookup_delete_eq.
Defined.

Lemma main_Raise (fico_model : list (list Q) -> Z)
    (req_body : gmap string (gmap string num))
    (errors : gmap string messages) :
  FicoCreditRecordSchema.load req_body = Raise (ValidationError errors) ->
  main fico_model req_body = Ok (Response400 errors).
Proof. intros H. unfold main, load_credit_record. by rewrite H. Qed.



(** X24. When fields offend in one or several blocks of the request body,
    [main] answers with status 400 and one set of messages which has, under
    the data key of each such block and there under the name of each
    offending field, a non-empty list of messages. *)
Theorem main_reports_all (fico_model : list (list Q) -> Z)
    (req_body : gmap string (gmap string num)) :
  (exists c d f,
     req_body !! data_key_of c = Some d /\ f ∈ schema_of c /\ offending f d) ->
  exists errors,
    main fico_model req_body = Ok (Response400 errors) /\
    forall c d f,
      req_body !! data_key_of c = Some d -> f ∈ schema_of c ->
      offending f d ->
      exists msgs l,
        errors !! data_key_of c = Some (Nested msgs) /\
        msgs !! name f = Some (Messages l) /\ l <> [].
Proof.
  assert (forall c d f,
            req_body !! data_key_of c = Some d -> f ∈ schema_of c ->
            offending f d ->
            exists msgs,
              block_error c req_body = Some (Nested msgs) /\
              exists l, msgs !! name f = Some (Messages l) /\ l <> [])
    as Hblock.
  { intros c d f Hd Hf Hoff.
    destruct (Schema_load_Raise (schema_of c)
                (fun ret => init_data (columns_of c) ret ∅) d
                (schema_NoDup c)) as (msgs & Hl & Hall); [by exists f|].
    rewrite <- load_data_eq in Hl. exists msgs. split; [|by apply Hall].
    unfold block_error. by rewrite Hd, Hl. }
  intros (c & d & f & Hd & Hf & Hoff).
  destruct (FicoCreditRecordSchema_load_cases req_body)
    as [(cr0 & _ & Hnone & _)|(errors & Hr & HE & _)].
  - destruct (Hblock c d f Hd Hf Hoff) as (msgs & Hb & _).
    rewrite Hnone in Hb. discriminate Hb.
  - exists errors. split; [by apply main_Raise|].
    intros c' d' f' Hd' Hf' Hoff'.
    destruct (Hblock c' d' f' Hd' Hf' Hoff') as (msgs & Hb & l & Hm & Hl).
    exists msgs, l. by rewrite HE.
Qed.

Lemma main_reports_all_witness :
  exists errors msgs l1 l2,
    main (fun _ => 0) faulty_body = Ok (Response400 errors) /\
    errors !! "paymentHistory" = Some (Nested msgs) /\
    msgs !! "open_acc" = Some (Messages l1) /\ l1 <> [] /\
    msgs !! "num_sats" = Some (Messages l2) /\ l2 <> [].
Proof.
  assert (faulty_body !! data_key_of PaymentHistory
            = Some faulty_payment_history) as Hblock
    by apply lookup_insert_eq.
  destruct (main_reports_all (fun _ => 0) faulty_body) as (errors & Hm & Hall).
  { exists PaymentHistory, faulty_payment_history. eexists.
    split; [exact Hblock|]. split; [|exact faulty_open_acc]. declared. }
  destruct (Hall PaymentHistory faulty_payment_history
              (fields_Int "open_acc" true None (Range_min (NInt 0)))
              Hblock ltac:(declared) faulty_open_acc)
    as (msgs & l1 & He & H1 & Hn1).
  destruct (Hall PaymentHistory faulty_payment_history
              (fields_Int "num_sats" true None (Range_min (NInt 0)))
              Hblock ltac:(declared) faulty_num_sats)
    as (msgs' & l2 & He' & H2 & Hn2).
  cbn [data_key_of] in He, He'. rewrite He in He'. injection He' as <-.
  exists errors, msgs, l1, l2. split; [exact Hm|]. split; [exact He|].
  split; [exact H1|]. split; [exact Hn1|]. split; [exact H2 | exact Hn2].
Defined.

(** ** More on the derivation step *)

(** X25. [process] does not look at the two flags before it writes them:
    on a valid composite, whatever values the flags were given beforehand,
    the run ends in the same composite as a run on the fresh one. *)
Theorem process_overwrites (cr : CreditRecord.t) (b4 b5 : bool) :
  valid cr ->
  CreditRecord.process
    (CreditRecord.set_credit_mix
       (CreditRecord.set_new_credit cr
          (NewCreditCreditRecord.set_has_new_revolver
             (CreditRecord.new_credit cr) b4))
       (CreditMixCreditRecord.set_no_revol_util
          (CreditRecord.credit_mix cr) b5))
  = CreditRecord.process cr.
Proof.
  intros Hv. destruct (process_eval cr Hv) as (v & w & Hhl & Hao & ->).
  unfold CreditRecord.process, getitem.
  cbn [CreditRecord.set_credit_mix CreditRecord.set_new_credit
       CreditRecord.history_length CreditRecord.amounts_owed
       CreditRecord.payment_history CreditRecord.new_credit
       CreditRecord.credit_mix]. rewrite Hhl.
  cbn [CreditRecord.set_new_credit CreditRecord.amounts_owed]. by rewrite Hao.
Qed.

Lemma process_overwrites_witness :
  exists cr,
    FicoCreditRecordSchema.load minimal_body = Ok cr /\
    CreditRecord.process
      (CreditRecord.set_credit_mix
         (CreditRecord.set_new_credit cr
            (NewCreditCreditRecord.set_has_new_revolver
               (CreditRecord.new_credit cr) true))
         (CreditMixCreditRecord.set_no_revol_util
            (CreditRecord.credit_mix cr) false))
    = CreditRecord.process cr.
Proof.
  destruct (is_Ok_true (FicoCreditRecordSchema.load minimal_body))
    as [cr Hcr]; [vm_compute; reflexivity|].
  exists cr. split; [exact Hcr|].
  apply process_overwrites.
  exact (FicoCreditRecordSchema_load_valid _ _ Hcr).
Defined.

(** X26. The sentinel defaults make the five [never_*] properties true: on a
    record the Payment History validator produced, each of them is true when
    the raw mapping omits its counter. *)
Theorem never_defaults (raw : gmap string num)
    (r : PaymentHistoryCreditRecord.t) :
  PaymentHistoryCreditRecordSchema.load raw = Ok r ->
  (raw !! "mths_since_last_major_derog" = None ->
   PaymentHistoryCreditRecord.never_major_derog r = Ok true) /\
  (raw !! "mths_since_last_record" = None ->
   PaymentHistoryCreditRecord.never_record r = Ok true) /\
  (raw !! "mths_since_last_delinq" = None ->
   PaymentHistoryCreditRecord.never_delinq r = Ok true) /\
  (raw !! "mths_since_recent_revol_delinq" = None ->
   PaymentHistoryCreditRecord.never_recent_revol_delinq r = Ok true) /\
  (raw !! "mths_since_recent_bc_dlq" = None ->
   PaymentHistoryCreditRecord.never_recent_bc_delinq r = Ok true).
Proof.
  intros H%PaymentHistory_load.
  pose proof (load_data_lookup PaymentHistory raw _
    (fields_Int "mths_since_last_major_derog" false (Some (NInt 226))
       (Range_min_max (NInt 0) (NInt 226))) H ltac:(declared) ltac:(column))
    as H1.
  pose proof (load_data_lookup PaymentHistory raw _
    (fields_Int "mths_since_last_record" false (Some (NInt 124))
       (Range_min_max (NInt 0) (NInt 124))) H ltac:(declared) ltac:(column))
    as H2.
  pose proof (load_data_lookup PaymentHistory raw _
    (fields_Int "mths_since_last_delinq" false (Some (NInt 226))
       (Range_min_max (NInt 0) (NInt 226))) H ltac:(declared) ltac:(column))
    as H3.
  pose proof (load_data_lookup PaymentHistory raw _
    (fields_Int "mths_since_recent_revol_delinq" false (Some (NInt 176))
       (Range_min (NInt 0))) H ltac:(declared) ltac:(column)) as H4.
  pose proof (load_data_lookup PaymentHistory raw _
    (fields_Int "mths_since_recent_bc_dlq" false (Some (NInt 195))
       (Range_min (NInt 0))) H ltac:(declared) ltac:(column)) as H5.
  cbn [name missing fields_Int] in H1, H2, H3, H4, H5.
  unfold PaymentHistoryCreditRecord.never_major_derog,
    PaymentHistoryCreditRecord.never_record,
    PaymentHistoryCreditRecord.never_delinq,
    PaymentHistoryCreditRecord.never_recent_revol_delinq,
    PaymentHistoryCreditRecord.never_recent_bc_delinq, getitem.
  repeat split; intros Hn.
  - rewrite Hn in H1. by rewrite H1.
  - rewrite Hn in H2. by rewrite H2.
  - rewrite Hn in H3. by rewrite H3.
  - rewrite Hn in H4. by rewrite H4.
  - rewrite Hn in H5. by rewrite H5.
Qed.

Lemma never_defaults_witness :
  exists r,
    PaymentHistoryCreditRecordSchema.load minimal_payment_history = Ok r /\
    PaymentHistoryCreditRecord.never_major_derog r = Ok true /\
    PaymentHistoryCreditRecord.never_recent_bc_delinq r = Ok true.
Proof.
  destruct (is_Ok_true
    (PaymentHistoryCreditRecordSchema.load minimal_payment_history))
    as [r Hr]; [vm_compute; reflexivity|].
  destruct (never_defaults _ r Hr) as (H1 & _ & _ & _ & H5).
  exists r. split; [exact Hr|]. split.
  - apply H1. vm_compute. reflexivity.
  - apply H5. vm_compute. reflexivity.
Defined.

(** X27. The two derived flags, end to end. Whenever [load_credit_record]
    returns a composite, [has_new_revolver] is true exactly when the History
    Length block supplies a [mo_sin_old_rev_tl_op] that is, as an integer, at
    most 12 (false when omitted: the default is 851), and [no_revol_util] is
    true exactly when the Amounts Owed block supplies a [revol_bal] below 1
    or omits it (the default is 0.0). *)
Theorem derived_flags (req_body : gmap string (gmap string num))
    (cr : CreditRecord.t) :
  load_credit_record req_body = Ok cr ->
  exists d2 d3,
    req_body !! "amountsOwed" = Some d2 /\
    req_body !! "historyLength" = Some d3 /\
    NewCreditCreditRecord.has_new_revolver (CreditRecord.new_credit cr)
      = Some match d3 !! "mo_sin_old_rev_tl_op" with
             | Some value => to_int value <=? 12
             | None => false
             end /\
    CreditMixCreditRecord.no_revol_util (CreditRecord.credit_mix cr)
      = Some match d2 !! "revol_bal" with
             | Some value => Qlt_bool (to_float value) 1
             | None => true
             end.
Proof.
  intros (cr0 & Hload & Hp)%load_credit_record_Ok.
  pose proof (FicoCreditRecordSchema_load_valid _ _ Hload) as Hv.
  destruct (process_eval cr0 Hv) as (v & w & Hhl & Hao & Hp').
  rewrite Hp' in Hp. injection Hp as <-.
  apply FicoCreditRecordSchema_load_Ok in Hload
    as (d1 & d2 & d3 & d4 & d5 & _ & K2 & K3 & _ & _ & _ & L2 & L3 & _ & _).
  apply AmountsOwed_load in L2. apply HistoryLength_load in L3.
  pose proof (load_data_lookup HistoryLength d3 _
    (fields_Int "mo_sin_old_rev_tl_op" false (Some (NInt 851))
       (Range_min_max (NInt 0) (NInt 851))) L3 ltac:(declared) ltac:(column))
    as H3.
  pose proof (load_data_lookup AmountsOwed d2 _
    (fields_Float "revol_bal" false (Some (NFloat 0)) (Range_min (NInt 0)))
    L2 ltac:(declared) ltac:(column)) as H2.
  cbn [name missing ty fields_Int fields_Float Number_deserialize] in H2, H3.
  rewrite Hhl in H3. rewrite Hao in H2.
  exists d2, d3. split; [exact K2|]. split; [exact K3|].
  cbn [CreditRecord.new_credit CreditRecord.credit_mix
       NewCreditCreditRecord.has_new_revolver
       CreditMixCreditRecord.no_revol_util].
  split; f_equal.
  - destruct (d3 !! "mo_sin_old_rev_tl_op") as [value|];
      injection H3 as ->; [apply num_leb_NInt | reflexivity].
  - destruct (d2 !! "revol_bal") as [value|];
      injection H2 as ->; reflexivity.
Qed.

Lemma derived_flags_witness :
  exists cr,
    load_credit_record minimal_body = Ok cr /\
    NewCreditCreditRecord.has_new_revolver (CreditRecord.new_credit cr)
      = Some false /\
    CreditMixCreditRecord.no_revol_util (CreditRecord.credit_mix cr)
      = Some true.
Proof.
  destruct (is_Ok_true (load_credit_record minimal_body))
    as [cr Hcr]; [vm_compute; reflexivity|].
  destruct (derived_flags minimal_body cr Hcr)
    as (d2 & d3 & K2 & K3 & Hn & Hu).
  assert (minimal_body !! "amountsOwed" = Some minimal_amounts_owed) as K2'
    by (unfold minimal_body; cbn [list_to_map foldr];
        rewrite lookup_insert_ne by done; apply lookup_insert_eq).
  assert (minimal_body !! "historyLength" = Some minimal_history_length)
    as K3'
    by (unfold minimal_body; cbn [list_to_map foldr];
        do 2 (rewrite lookup_insert_ne by done); apply lookup_insert_eq).
  rewrite K2' in K2. injection K2 as <-.
  rewrite K3' in K3. injection K3 as <-.
  assert (minimal_history_length !! "mo_sin_old_rev_tl_op" = None) as E3
    by (vm_compute; reflexivity).
  assert (minimal_amounts_owed !! "revol_bal" = None) as E2
    by (vm_compute; reflexivity).
  rewrite E3 in Hn. rewrite E2 in Hu.
  exists cr. split; [exact Hcr|]. split; [exact Hn | exact Hu].
Defined.
